(** * Relic config validator

    A shallow embedding of [tools/config_validator.py]: the schema registry,
    kind detection, the type, constraint and curve checks, and the document
    validation entry points, followed by the properties proved about them.

    Conventions of the embedding:
    - a Python [dict] is an association list in insertion order (the order in
      which the loops of the source visit it);
    - the [ValidationResult] object that the source mutates is threaded
      through every checking function (explicit state passing);
    - a call that can raise returns an [outcome];
    - a Python [float] is an IEEE-754 value ([spec_float]); comparisons between
      ints and floats are exact, as in Python. *)

From Stdlib Require Import ZArith QArith List String Ascii Bool Lia.
From Stdlib Require Import Floats.SpecFloat DecimalString.
Import ListNotations.
Local Close Scope Q_scope.
Local Open Scope string_scope.

(* ================================================================== *)
(** ** Python values *)

(** What [json.loads] and [yaml.safe_load] hand to the validator. *)
#[warnings="-register-all"]
Inductive value : Type :=
| VNone
| VBool (b : bool)
| VInt (z : Z)
| VFloat (f : spec_float)
| VStr (s : string)
| VList (items : list value)
| VTuple (items : list value)
| VDict (entries : list (string * value)).

(** A document: [dict[str, Any]]. *)
Definition document := list (string * value).

(** [d.get(k)]: the value stored under [k], if any. *)
Fixpoint dict_get {A : Type} (k : string) (d : list (string * A)) : option A :=
  match d with
  | [] => None
  | (k', v) :: rest => if String.eqb k' k then Some v else dict_get k rest
  end.

(** [k in d]. *)
Definition dict_has {A : Type} (k : string) (d : list (string * A)) : bool :=
  match dict_get k d with
  | Some _ => true
  | None => false
  end.

(** [d.keys()], in insertion order. *)
Definition dict_keys {A : Type} (d : list (string * A)) : list string :=
  map fst d.

(** [x in xs] for a collection of strings. *)
Definition str_in (x : string) (xs : list string) : bool :=
  existsb (String.eqb x) xs.

(** The runtime classes the validator looks at. *)
Inductive pytype : Type :=
| Tstr | Tint | Tfloat | Tbool | Tlist | Ttuple | Tdict | TNoneType.

(** [t.__name__]. *)
Definition type_name (t : pytype) : string :=
  match t with
  | Tstr => "str"
  | Tint => "int"
  | Tfloat => "float"
  | Tbool => "bool"
  | Tlist => "list"
  | Ttuple => "tuple"
  | Tdict => "dict"
  | TNoneType => "NoneType"
  end.

(** [type(v)]. *)
Definition type_of (v : value) : pytype :=
  match v with
  | VNone => TNoneType
  | VBool _ => Tbool
  | VInt _ => Tint
  | VFloat _ => Tfloat
  | VStr _ => Tstr
  | VList _ => Tlist
  | VTuple _ => Ttuple
  | VDict _ => Tdict
  end.

Definition pytype_eqb (t u : pytype) : bool :=
  match t, u with
  | Tstr, Tstr | Tint, Tint | Tfloat, Tfloat | Tbool, Tbool
  | Tlist, Tlist | Ttuple, Ttuple | Tdict, Tdict | TNoneType, TNoneType => true
  | _, _ => false
  end.

(** [issubclass(t, u)]: every class is its own subclass, and [bool] is a
    subclass of [int]. *)
Definition issubclass (t u : pytype) : bool :=
  pytype_eqb t u ||
  match t, u with
  | Tbool, Tint => true
  | _, _ => false
  end.

(** The second argument of [isinstance]: one class, or a tuple of classes. *)
Inductive expected_type : Type :=
| Single (t : pytype)
| Union (ts : list pytype).

Definition isinstance (v : value) (e : expected_type) : bool :=
  match e with
  | Single t => issubclass (type_of v) t
  | Union ts => existsb (issubclass (type_of v)) ts
  end.

(** [isinstance(v, (int, float))]. *)
Definition numeric : expected_type := Union [Tint; Tfloat].

(* ------------------------------------------------------------------ *)
(** *** Numbers and their ordering *)

(** The operands of the constraint comparisons. *)
Inductive num : Type :=
| NInt (z : Z)
| NFloat (f : spec_float).

(** The number a value stands for in a comparison ([True] is 1, [False] is
    0); [None] for the values [isinstance(v, (int, float))] rejects. *)
Definition as_num (v : value) : option num :=
  match v with
  | VBool b => Some (NInt (Z.b2z b))
  | VInt z => Some (NInt z)
  | VFloat f => Some (NFloat f)
  | _ => None
  end.

Definition num_value (n : num) : value :=
  match n with
  | NInt z => VInt z
  | NFloat f => VFloat f
  end.

(** The extended rational a number denotes. *)
Inductive ext : Type :=
| ENaN
| EInf (negative : bool)
| EFin (q : Q).

Definition float_ext (f : spec_float) : ext :=
  match f with
  | S754_zero _ => EFin 0%Q
  | S754_infinity s => EInf s
  | S754_nan => ENaN
  | S754_finite s m e =>
      EFin (Qmult (inject_Z (if s then Z.neg m else Z.pos m)) (Qpower (2 # 1) e))
  end.

Definition num_ext (n : num) : ext :=
  match n with
  | NInt z => EFin (inject_Z z)
  | NFloat f => float_ext f
  end.

(** Python compares an int with a float by exact value; every comparison
    with NaN is false (here: unordered). *)
Definition ext_compare (a b : ext) : option comparison :=
  match a, b with
  | ENaN, _ | _, ENaN => None
  | EInf s, EInf t => Some (if Bool.eqb s t then Eq else if s then Lt else Gt)
  | EInf s, EFin _ => Some (if s then Lt else Gt)
  | EFin _, EInf t => Some (if t then Gt else Lt)
  | EFin p, EFin q => Some (Qcompare p q)
  end.

Definition num_compare (a b : num) : option comparison :=
  ext_compare (num_ext a) (num_ext b).

(** [a < b], [a > b], [a <= b] and [a == b] on numbers. *)
Definition num_lt (a b : num) : bool :=
  match num_compare a b with Some Lt => true | _ => false end.

Definition num_gt (a b : num) : bool :=
  match num_compare a b with Some Gt => true | _ => false end.

Definition num_le (a b : num) : bool :=
  match num_compare a b with Some Lt | Some Eq => true | _ => false end.

Definition num_eq (a b : num) : bool :=
  match num_compare a b with Some Eq => true | _ => false end.

(** [a <= b] in the sense of [ext_compare]. *)
Definition ext_le (a b : ext) : Prop :=
  ext_compare a b = Some Lt \/ ext_compare a b = Some Eq.

(** The float literals of the source and of the examples, as doubles. *)
Definition float_0_1 : spec_float := S754_finite false 7205759403792794 (-56).
Definition float_0_5 : spec_float := S754_finite false 4503599627370496 (-53).
Definition float_0_8 : spec_float := S754_finite false 7205759403792794 (-53).
Definition float_1_0 : spec_float := S754_finite false 4503599627370496 (-52).
Definition float_0_7 : spec_float := S754_finite false 6305039478318694 (-53).
Definition float_0_9 : spec_float := S754_finite false 8106479329266893 (-53).
Definition float_1_1 : spec_float := S754_finite false 4953959590107546 (-52).
Definition float_1_2 : spec_float := S754_finite false 5404319552844595 (-52).
Definition float_1_5 : spec_float := S754_finite false 6755399441055744 (-52).
Definition float_5_0 : spec_float := S754_finite false 5629499534213120 (-50).
Definition float_15_0 : spec_float := S754_finite false 8444249301319680 (-49).
Definition float_99_5 : spec_float := S754_finite false 7001690045677568 (-46).

(* ------------------------------------------------------------------ *)
(** *** Strings *)

(** [str(index)] for a list index. *)
Definition nat_to_string (n : nat) : string :=
  NilEmpty.string_of_uint (Nat.to_uint n).

(** [sep.join(xs)]. *)
Fixpoint join (sep : string) (xs : list string) : string :=
  match xs with
  | [] => ""
  | [x] => x
  | x :: rest => x ++ sep ++ join sep rest
  end.

(** [c.lower()] on one ASCII character. *)
Definition lower_ascii (c : ascii) : ascii :=
  let n := nat_of_ascii c in
  if (65 <=? n)%nat && (n <=? 90)%nat then ascii_of_nat (n + 32) else c.

(** [s.lower()]; the strings compared by the validator are ASCII. *)
Fixpoint lower (s : string) : string :=
  match s with
  | EmptyString => EmptyString
  | String c rest => String (lower_ascii c) (lower rest)
  end.

(** [s.endswith(suffix)]. *)
Definition endswith (s suffix : string) : bool :=
  let n := String.length s in
  let m := String.length suffix in
  (m <=? n)%nat && String.eqb (substring (n - m) m s) suffix.

(** [needle in hay] on strings. *)
Fixpoint contains (needle hay : string) : bool :=
  String.prefix needle hay ||
  match hay with
  | EmptyString => false
  | String _ rest => contains needle rest
  end.

(** An f-string, kept as the sequence of its parts: text (literal text and
    interpolated strings, whose [str()] is the string itself) and
    interpolated numbers, kept as the value that [str()] is applied to. *)
Inductive fpart : Type :=
| Lit (s : string)
| Fmt (v : value).

Definition fstring := list fpart.

(** The text [s] occurs in a literal part of the message. *)
Definition mentions (s : string) (msg : fstring) : bool :=
  existsb (fun p => match p with Lit t => contains s t | Fmt _ => false end) msg.

(* ================================================================== *)
(** ** Results *)

Inductive ConfigType : Type :=
| ERA_CONFIG
| UNIT_ARCHETYPE
| WEAPON_STATS
| UPGRADE_DEFINITION.

(** [config_type.value]. *)
Definition ConfigType_value (c : ConfigType) : string :=
  match c with
  | ERA_CONFIG => "EraConfig"
  | UNIT_ARCHETYPE => "UnitArchetype"
  | WEAPON_STATS => "WeaponStats"
  | UPGRADE_DEFINITION => "UpgradeDefinition"
  end.

(** [str(config_type)]. *)
Definition ConfigType_str (c : ConfigType) : string :=
  match c with
  | ERA_CONFIG => "ConfigType.ERA_CONFIG"
  | UNIT_ARCHETYPE => "ConfigType.UNIT_ARCHETYPE"
  | WEAPON_STATS => "ConfigType.WEAPON_STATS"
  | UPGRADE_DEFINITION => "ConfigType.UPGRADE_DEFINITION"
  end.

(** [for config_type in ConfigType]: the members in definition order. *)
Definition ConfigType_members : list ConfigType :=
  [ERA_CONFIG; UNIT_ARCHETYPE; WEAPON_STATS; UPGRADE_DEFINITION].

Definition ConfigType_eqb (a b : ConfigType) : bool :=
  match a, b with
  | ERA_CONFIG, ERA_CONFIG
  | UNIT_ARCHETYPE, UNIT_ARCHETYPE
  | WEAPON_STATS, WEAPON_STATS
  | UPGRADE_DEFINITION, UPGRADE_DEFINITION => true
  | _, _ => false
  end.

Record ValidationError : Type := mkError {
  path : string;
  message : fstring;
  severity : string
}.

Record ValidationResult : Type := mkResult {
  file_path : string;
  config_type : option ConfigType;
  errors : list ValidationError;
  warnings : list ValidationError
}.

(** [ValidationResult(file_path=..., config_type=...)]: both lists empty. *)
Definition new_result (fp : string) (ct : option ConfigType) : ValidationResult :=
  mkResult fp ct [] [].

Definition is_valid (r : ValidationResult) : bool :=
  (List.length (errors r) =? 0)%nat.

Definition add_error (p : string) (msg : fstring) (r : ValidationResult)
  : ValidationResult :=
  mkResult (file_path r) (config_type r)
           (errors r ++ [mkError p msg "error"]) (warnings r).

Definition add_warning (p : string) (msg : fstring) (r : ValidationResult)
  : ValidationResult :=
  mkResult (file_path r) (config_type r)
           (errors r) (warnings r ++ [mkError p msg "warning"]).

Definition set_config_type (ct : ConfigType) (r : ValidationResult)
  : ValidationResult :=
  mkResult (file_path r) (Some ct) (errors r) (warnings r).

(** Exceptions, and calls that may raise one. *)
Inductive exn : Type :=
| AttributeError (class_name attribute : string).

Inductive outcome (A : Type) : Type :=
| Ok (a : A)
| Raise (e : exn).

Arguments Ok {A} a.
Arguments Raise {A} e.

(* ================================================================== *)
(** ** Schema registry *)

(** A constraint entry, e.g. [{"min": 0, "max": 10000}]. *)
Definition constraint := list (string * num).

(** One entry of [SCHEMAS]; the keys [optional_fields], [nested_schemas]
    and [constraints] may be absent from an entry. *)
Record Schema : Type := mkSchema {
  required_fields : list (string * expected_type);
  optional_fields : option (list (string * expected_type));
  nested_schemas : option (list (string * string));
  constraints : option (list (string * constraint))
}.

Definition int_or_float : expected_type := Union [Tint; Tfloat].

Definition era_schema : Schema :=
  mkSchema
    [("name", Single Tstr); ("archetypes", Single Tlist)]
    (Some [("description", Single Tstr);
           ("visual_style", Single Tstr);
           ("upgrades", Single Tlist)])
    (Some [("archetypes", "UnitArchetype");
           ("upgrades", "UpgradeDefinition")])
    None.

Definition unit_archetype_schema : Schema :=
  mkSchema
    [("id", Single Tstr);
     ("base_health", int_or_float);
     ("base_move_speed", int_or_float)]
    (Some [("name", Single Tstr);
           ("description", Single Tstr);
           ("weapon", Single Tstr);
           ("weapon_stats", Single Tdict);
           ("prefab", Single Tstr)])
    None
    (Some [("base_health", [("min", NInt 0); ("max", NInt 10000)]);
           ("base_move_speed", [("min", NInt 0); ("max", NInt 100)])]).

Definition weapon_stats_schema : Schema :=
  mkSchema
    [("name", Single Tstr);
     ("shots_per_burst", Single Tint);
     ("fire_rate", int_or_float);
     ("base_hit_chance", int_or_float);
     ("base_damage", int_or_float)]
    (Some [("effective_range", int_or_float);
           ("range_curve", Single Tlist);
           ("elevation_curve", Single Tlist);
           ("description", Single Tstr)])
    None
    (Some [("shots_per_burst", [("min", NInt 1); ("max", NInt 100)]);
           ("fire_rate", [("min", NFloat float_0_1); ("max", NInt 100)]);
           ("base_hit_chance", [("min", NInt 0); ("max", NInt 1)]);
           ("base_damage", [("min", NInt 0); ("max", NInt 10000)]);
           ("effective_range", [("min", NInt 0); ("max", NInt 1000)])]).

Definition upgrade_definition_schema : Schema :=
  mkSchema
    [("name", Single Tstr)]
    (Some [("description", Single Tstr);
           ("hit_chance_multiplier", int_or_float);
           ("damage_multiplier", int_or_float);
           ("elevation_bonus", int_or_float);
           ("cost", Single Tint)])
    None
    (Some [("hit_chance_multiplier", [("min", NInt 0); ("max", NInt 10)]);
           ("damage_multiplier", [("min", NInt 0); ("max", NInt 10)]);
           ("elevation_bonus", [("min", NInt (-1)); ("max", NInt 1)]);
           ("cost", [("min", NInt 0); ("max", NInt 100000)])]).

Definition SCHEMAS : list (ConfigType * Schema) :=
  [(ERA_CONFIG, era_schema);
   (UNIT_ARCHETYPE, unit_archetype_schema);
   (WEAPON_STATS, weapon_stats_schema);
   (UPGRADE_DEFINITION, upgrade_definition_schema)].

(** [SCHEMAS.get(config_type)]. *)
Fixpoint schemas_get (ct : ConfigType) (reg : list (ConfigType * Schema))
  : option Schema :=
  match reg with
  | [] => None
  | (k, s) :: rest => if ConfigType_eqb k ct then Some s else schemas_get ct rest
  end.

(** [schema.get("optional_fields", {})]. *)
Definition optional_fields_of (schema : Schema) : list (string * expected_type) :=
  match optional_fields schema with
  | Some fields => fields
  | None => []
  end.

(* ================================================================== *)
(** ** Kind detection *)

(** [v.lower()]: only a [str] has the method. *)
Definition py_lower (v : value) : outcome string :=
  match v with
  | VStr s => Ok (lower s)
  | _ => Raise (AttributeError (type_name (type_of v)) "lower")
  end.

(** The loop over [ConfigType] that compares the lowered names. *)
Fixpoint match_type_name (members : list ConfigType) (type_str : value)
  : outcome (option ConfigType) :=
  match members with
  | [] => Ok None
  | config_type :: rest =>
      match py_lower type_str with
      | Raise e => Raise e
      | Ok lowered =>
          if String.eqb (lower (ConfigType_value config_type)) lowered
          then Ok (Some config_type)
          else match_type_name rest type_str
      end
  end.

(** The heuristics on field names that follow the loop. *)
Definition detect_by_fields (data : document) : option ConfigType :=
  if dict_has "archetypes" data then Some ERA_CONFIG
  else if dict_has "shots_per_burst" data || dict_has "fire_rate" data
  then Some WEAPON_STATS
  else if dict_has "hit_chance_multiplier" data || dict_has "damage_multiplier" data
  then Some UPGRADE_DEFINITION
  else if dict_has "base_health" data || dict_has "base_move_speed" data
  then Some UNIT_ARCHETYPE
  else None.

Definition detect_config_type (data : document) : outcome (option ConfigType) :=
  match dict_get "type" data with
  | Some type_str =>
      match match_type_name ConfigType_members type_str with
      | Raise e => Raise e
      | Ok (Some config_type) => Ok (Some config_type)
      | Ok None => Ok (detect_by_fields data)
      end
  | None => Ok (detect_by_fields data)
  end.

(* ================================================================== *)
(** ** Field, constraint and curve checks *)

Definition validate_field_type (v : value) (expected : expected_type)
           (field_path : string) (result : ValidationResult)
  : bool * ValidationResult :=
  match expected with
  | Union ts =>
      if negb (isinstance v expected) then
        let type_names := join " or " (map type_name ts) in
        (false,
         add_error field_path
           [Lit ("Expected " ++ type_names ++ ", got " ++ type_name (type_of v))]
           result)
      else (true, result)
  | Single t =>
      if negb (isinstance v expected) then
        (false,
         add_error field_path
           [Lit ("Expected " ++ type_name t ++ ", got " ++ type_name (type_of v))]
           result)
      else (true, result)
  end.

Definition below_minimum_message (v : value) (lo : num) : fstring :=
  [Lit "Value "; Fmt v; Lit " is below minimum "; Fmt (num_value lo)].

Definition exceeds_maximum_message (v : value) (hi : num) : fstring :=
  [Lit "Value "; Fmt v; Lit " exceeds maximum "; Fmt (num_value hi)].

Definition validate_constraints (v : value) (c : constraint)
           (field_path : string) (result : ValidationResult)
  : ValidationResult :=
  match as_num v with
  | None => result
  | Some n =>
      let result1 :=
        match dict_get "min" c with
        | Some lo =>
            if num_lt n lo
            then add_error field_path (below_minimum_message v lo) result
            else result
        | None => result
        end in
      match dict_get "max" c with
      | Some hi =>
          if num_gt n hi
          then add_error field_path (exceeds_maximum_message v hi) result1
          else result1
      | None => result1
      end
  end.

(** [isinstance(point, (list, tuple))], with the items when it holds. *)
Definition sequence_items (v : value) : option (list value) :=
  match v with
  | VList items | VTuple items => Some items
  | _ => None
  end.

(** The body of the loop over [enumerate(curve)]. *)
Definition validate_curve_point (field_path : string) (index : nat)
           (point : value) (result : ValidationResult) : ValidationResult :=
  let point_path := field_path ++ "[" ++ nat_to_string index ++ "]" in
  match sequence_items point with
  | Some [x_val; y_val] =>
      let result1 :=
        if negb (isinstance x_val numeric)
        then add_error (point_path ++ "[0]")
               [Lit ("X value must be numeric, got " ++ type_name (type_of x_val))]
               result
        else result in
      if negb (isinstance y_val numeric)
      then add_error (point_path ++ "[1]")
             [Lit ("Y value must be numeric, got " ++ type_name (type_of y_val))]
             result1
      else result1
  | _ => add_error point_path [Lit "Each curve point must be [x, y]"] result
  end.

Fixpoint validate_curve_points (field_path : string) (index : nat)
         (points : list value) (result : ValidationResult) : ValidationResult :=
  match points with
  | [] => result
  | point :: rest =>
      validate_curve_points field_path (S index) rest
        (validate_curve_point field_path index point result)
  end.

Definition validate_curve (curve : value) (field_path : string)
           (result : ValidationResult) : ValidationResult :=
  match curve with
  | VList points => validate_curve_points field_path 0 points result
  | _ => add_error field_path [Lit "Curve must be a list of [x, y] pairs"] result
  end.

(* ================================================================== *)
(** ** Document validation *)

(** [f"{path_prefix}.{field_name}" if path_prefix else field_name]. *)
Definition make_field_path (path_prefix field_name : string) : string :=
  match path_prefix with
  | EmptyString => field_name
  | _ => path_prefix ++ "." ++ field_name
  end.

(** The constraint check both loops run after the type check:
    [if "constraints" in schema and field_name in schema["constraints"]]. *)
Definition check_declared_constraints (schema : Schema) (field_name : string)
           (v : value) (field_path : string) (result : ValidationResult)
  : ValidationResult :=
  match constraints schema with
  | Some table =>
      match dict_get field_name table with
      | Some c => validate_constraints v c field_path result
      | None => result
      end
  | None => result
  end.

(** One iteration of the loop over the required fields. *)
Definition required_step (schema : Schema) (data : document)
           (path_prefix : string) (result : ValidationResult)
           (entry : string * expected_type) : ValidationResult :=
  let field_name := fst entry in
  let field_path := make_field_path path_prefix field_name in
  match dict_get field_name data with
  | None =>
      add_error field_path
        [Lit ("Required field '" ++ field_name ++ "' is missing")] result
  | Some v =>
      let result1 := snd (validate_field_type v (snd entry) field_path result) in
      check_declared_constraints schema field_name v field_path result1
  end.

(** One iteration of the loop over the optional fields. *)
Definition optional_step (schema : Schema) (data : document)
           (path_prefix : string) (result : ValidationResult)
           (entry : string * expected_type) : ValidationResult :=
  let field_name := fst entry in
  match dict_get field_name data with
  | None | Some VNone => result
  | Some v =>
      let field_path := make_field_path path_prefix field_name in
      let result1 := snd (validate_field_type v (snd entry) field_path result) in
      let result2 :=
        check_declared_constraints schema field_name v field_path result1 in
      if endswith field_name "_curve" && isinstance v (Single Tlist)
      then validate_curve v field_path result2
      else result2
  end.

(** [set(required) | set(optional)], then [add("type")]. *)
Definition known_fields (schema : Schema) : list string :=
  dict_keys (required_fields schema) ++ dict_keys (optional_fields_of schema)
  ++ ["type"].

(** One iteration of the loop over the document's own fields. *)
Definition unknown_step (schema : Schema) (path_prefix : string)
           (result : ValidationResult) (field_name : string) : ValidationResult :=
  if negb (str_in field_name (known_fields schema))
  then add_warning (make_field_path path_prefix field_name)
         [Lit ("Unknown field '" ++ field_name ++ "'")] result
  else result.

Definition validate_config (data : document) (ct : ConfigType)
           (result : ValidationResult) (path_prefix : string)
  : ValidationResult :=
  match schemas_get ct SCHEMAS with
  | None =>
      add_error (match path_prefix with EmptyString => "root" | _ => path_prefix end)
        [Lit ("Unknown config type: " ++ ConfigType_str ct)] result
  | Some schema =>
      let result1 :=
        fold_left (required_step schema data path_prefix)
                  (required_fields schema) result in
      let result2 :=
        fold_left (optional_step schema data path_prefix)
                  (optional_fields_of schema) result1 in
      fold_left (unknown_step schema path_prefix) (dict_keys data) result2
  end.

(** [validate_file], from the pair [(data, error)] that [load_config_file]
    returned for the file (reading and parsing are outside the model). *)
Definition validate_file (path_of_file : string)
           (loaded : value * option string) : outcome ValidationResult :=
  let result := new_result path_of_file None in
  match snd loaded with
  | Some (String c rest) => Ok (add_error "file" [Lit (String c rest)] result)
  | _ =>
      match fst loaded with
      | VDict data =>
          match detect_config_type data with
          | Raise e => Raise e
          | Ok None =>
              Ok (add_error "root"
                    [Lit "Unable to detect config type. Add 'type' field or use recognizable field names."]
                    result)
          | Ok (Some ct) =>
              Ok (validate_config data ct (set_config_type ct result) "")
          end
      | other =>
          Ok (add_error "root"
                [Lit ("Expected dictionary, got " ++ type_name (type_of other))]
                result)
      end
  end.

(* ================================================================== *)
(** ** Vocabulary of the statements *)

(** The empty result every frame lemma is measured against. *)
Definition fresh : ValidationResult := new_result "" None.

(** [r] with [es] appended to its errors and [ws] to its warnings. *)
Definition emits (es ws : list ValidationError) (r : ValidationResult)
  : ValidationResult :=
  mkResult (file_path r) (config_type r) (errors r ++ es) (warnings r ++ ws).

(** A checking function that only ever appends to the result it is given,
    and appends the same entries whatever that result holds. *)
Definition appender (f : ValidationResult -> ValidationResult) : Prop :=
  exists es ws, forall r, f r = emits es ws r.

(** An appender that never touches the warnings. *)
Definition error_appender (f : ValidationResult -> ValidationResult) : Prop :=
  exists es, forall r, f r = emits es [] r.

(** What [make_field_path] puts in front of the field name. *)
Definition path_head (path_prefix : string) : string :=
  match path_prefix with
  | EmptyString => EmptyString
  | _ => path_prefix ++ "."
  end.

Definition path_is (p : string) (e : ValidationError) : bool :=
  String.eqb (path e) p.

(** The errors, and the warnings, reported at one path. *)
Definition errors_at (p : string) (r : ValidationResult) : list ValidationError :=
  filter (path_is p) (errors r).

Definition warnings_at (p : string) (r : ValidationResult) : list ValidationError :=
  filter (path_is p) (warnings r).

(** The check of [validate_constraints] reports nothing for [v]. *)
Definition passes_constraints (v : value) (c : constraint) : bool :=
  match as_num v with
  | None => true
  | Some n =>
      negb (match dict_get "min" c with Some lo => num_lt n lo | None => false end)
      && negb (match dict_get "max" c with Some hi => num_gt n hi | None => false end)
  end.

(** The constraint check that [validate_config] runs for a field reports
    nothing: no constraint is declared for it, or the value passes. *)
Definition passes_declared_constraints (schema : Schema) (field_name : string)
           (v : value) : bool :=
  match constraints schema with
  | Some table =>
      match dict_get field_name table with
      | Some c => passes_constraints v c
      | None => true
      end
  | None => true
  end.

(** [lo <= v <= hi] for the bounds a constraint declares. *)
Definition in_range (v : value) (c : constraint) : Prop :=
  forall n, as_num v = Some n ->
    (forall lo, dict_get "min" c = Some lo -> num_le lo n = true) /\
    (forall hi, dict_get "max" c = Some hi -> num_le n hi = true).

Definition in_declared_range (schema : Schema) (field_name : string)
           (v : value) : Prop :=
  forall table c, constraints schema = Some table ->
    dict_get field_name table = Some c -> in_range v c.

(** A curve point that is a two-element sequence of numbers. *)
Definition good_point (point : value) : Prop :=
  exists x y, sequence_items point = Some [x; y]
              /\ isinstance x numeric = true /\ isinstance y numeric = true.

(** A required field that is present, of the expected type and in range. *)
Definition required_ok (schema : Schema) (data : document)
           (entry : string * expected_type) : Prop :=
  exists v, dict_get (fst entry) data = Some v
            /\ isinstance v (snd entry) = true
            /\ in_declared_range schema (fst entry) v.

(** An optional field that is absent, null, or of the expected type, in
    range and, for a curve field holding a list, made of good points. *)
Definition optional_ok (schema : Schema) (data : document)
           (entry : string * expected_type) : Prop :=
  match dict_get (fst entry) data with
  | None | Some VNone => True
  | Some v =>
      isinstance v (snd entry) = true
      /\ in_declared_range schema (fst entry) v
      /\ (endswith (fst entry) "_curve" = true ->
          forall points, v = VList points -> Forall good_point points)
  end.

(** Every field of the document is declared by the schema or is [type]. *)
Definition no_unknown_fields (schema : Schema) (data : document) : Prop :=
  forall k, In k (dict_keys data) -> str_in k (known_fields schema) = true.

(** The document without the field [k]. *)
Definition without_field (k : string) (data : document) : document :=
  filter (fun kv => negb (String.eqb (fst kv) k)) data.

(** Side conditions on a schema under which the errors of a required field
    can be told apart by their path: the required names are distinct, and no
    optional field has the name of a required one or a name that, followed by
    an index, spells one. *)
Fixpoint distinct (xs : list string) : bool :=
  match xs with
  | [] => true
  | x :: rest => negb (str_in x rest) && distinct rest
  end.

Definition separate_from (name : string) (other : string) : bool :=
  negb (String.eqb other name) && negb (String.prefix (other ++ "[") name).

Definition required_paths_separate (schema : Schema) : bool :=
  distinct (dict_keys (required_fields schema))
  && forallb (fun name =>
                forallb (separate_from name) (dict_keys (optional_fields_of schema)))
             (dict_keys (required_fields schema)).

(** Every declared constraint has both bounds, with [min <= max]. *)
Definition constraint_is_interval (c : constraint) : bool :=
  match dict_get "min" c, dict_get "max" c with
  | Some lo, Some hi => num_le lo hi
  | _, _ => false
  end.

Definition constraints_are_intervals (schema : Schema) : bool :=
  match constraints schema with
  | Some table => forallb (fun entry => constraint_is_interval (snd entry)) table
  | None => true
  end.

(** The schema loops of [validate_config]: required, then optional fields. *)
Definition schema_loops (schema : Schema) (data : document) (prefix : string)
           (r : ValidationResult) : ValidationResult :=
  fold_left (optional_step schema data prefix) (optional_fields_of schema)
    (fold_left (required_step schema data prefix) (required_fields schema) r).

(** The detection policy in the words of the specification (section 4.2),
    to compare [detect_config_type] with: a discriminator that names a kind,
    in any letter case, decides; otherwise the field heuristics apply in the
    order era, weapon, upgrade, archetype; otherwise there is no kind. A
    discriminator that is not a string names no kind. *)
Definition names_kind (discriminator : value) (k : ConfigType) : bool :=
  match discriminator with
  | VStr s => String.eqb (lower (ConfigType_value k)) (lower s)
  | _ => false
  end.

Definition detect_kind_spec (data : document) : option ConfigType :=
  match dict_get "type" data with
  | Some discriminator =>
      match find (names_kind discriminator) ConfigType_members with
      | Some k => Some k
      | None => detect_by_fields data
      end
  | None => detect_by_fields data
  end.

(** The documents of the examples. *)
Definition era_with_bad_archetype : document :=
  [("type", VStr "EraConfig");
   ("name", VStr "Ancient");
   ("archetypes", VList [VDict [("base_health", VInt (-5))]])].

Definition weapon_with_fractional_burst : document :=
  [("type", VStr "WeaponStats");
   ("name", VStr "s");
   ("shots_per_burst", VFloat float_0_5);
   ("fire_rate", VFloat float_1_0);
   ("base_hit_chance", VFloat float_0_8);
   ("base_damage", VInt 25)].

Definition upgrade_with_text_cost : document :=
  [("type", VStr "UpgradeDefinition");
   ("name", VStr "Veterans");
   ("cost", VStr "expensive")].

Definition weapon_with_bad_curve : document :=
  [("type", VStr "WeaponStats");
   ("name", VStr "s");
   ("shots_per_burst", VInt 1);
   ("fire_rate", VFloat float_1_0);
   ("base_hit_chance", VFloat float_0_8);
   ("base_damage", VInt 25);
   ("range_curve",
    VList [VList [VInt 0; VFloat float_1_0]; VList [VInt 1; VStr "bad"]])].

Definition sample_curve : value :=
  VList [VList [VInt 0; VFloat float_1_0];
         VList [VInt 2; VFloat float_1_0];
         VList [VInt 3; VFloat float_0_5]].

Definition archetype_with_extra_field : document :=
  [("type", VStr "UnitArchetype");
   ("id", VStr "spearman");
   ("base_health", VInt 100);
   ("base_move_speed", VFloat float_1_0);
   ("unknown_field", VStr "value")].

Definition document_with_numeric_type : document :=
  [("type", VInt 5); ("archetypes", VList [])].

(** The documents of the repository's tests. *)
Definition test_result (ct : option ConfigType) : ValidationResult :=
  new_result "test.yaml" ct.

Definition spearman : document :=
  [("type", VStr "UnitArchetype");
   ("id", VStr "spearman");
   ("base_health", VInt 100);
   ("base_move_speed", VFloat float_5_0);
   ("weapon", VStr "bronze_spear")].

Definition rifle : document :=
  [("type", VStr "WeaponStats");
   ("name", VStr "rifle");
   ("shots_per_burst", VInt 3);
   ("fire_rate", VFloat float_5_0);
   ("base_hit_chance", VFloat float_0_7);
   ("base_damage", VInt 15);
   ("range_curve",
    VList [VList [VInt 0; VFloat float_1_0];
           VList [VInt 50; VFloat float_0_9];
           VList [VInt 100; VFloat float_0_5]]);
   ("elevation_curve",
    VList [VList [VInt 0; VFloat float_1_0]; VList [VInt 10; VFloat float_1_2]])].

(* ================================================================== *)
(** ** Rendering, files and the command line

    The rest of [config_validator.py]. What the module gets from outside
    (the file system, the two parsers, whether PyYAML could be imported,
    the parsed command line) is an argument of the functions below. *)

(** [c.upper()] on one ASCII character, and [s.upper()]. *)
Definition upper_ascii (c : ascii) : ascii :=
  let n := nat_of_ascii c in
  if (97 <=? n)%nat && (n <=? 122)%nat then ascii_of_nat (n - 32) else c.

Fixpoint upper (s : string) : string :=
  match s with
  | EmptyString => EmptyString
  | String c rest => String (upper_ascii c) (upper rest)
  end.

(** [ValidationError.__str__]:
    [f"[{self.severity.upper()}] {self.path}: {self.message}"]. *)
Definition ValidationError_str (e : ValidationError) : fstring :=
  Lit ("[" ++ upper (severity e) ++ "] " ++ path e ++ ": ") :: message e.

(** The newline that [print] ends a line with. *)
Definition nl : string := String (ascii_of_nat 10) EmptyString.

(** [s * n]. *)
Fixpoint str_repeat (s : string) (n : nat) : string :=
  match n with
  | O => EmptyString
  | S k => s ++ str_repeat s k
  end.

(** Standard output, as the text written so far; [print(text)] and
    [print(text, end="")]. *)
Definition print (text : fstring) (out : fstring) : fstring :=
  (out ++ text ++ [Lit nl])%list.

Definition print_no_end (text : fstring) (out : fstring) : fstring :=
  (out ++ text)%list.

(** A [pathlib.Path], by the attributes the module reads: [str(p)],
    [p.suffix] and [p.parts]. *)
Record Path : Type := mkPath {
  path_str : string;
  path_suffix : string;
  path_parts : list string
}.

(** The exceptions of the calls inside the [try] of [load_config_file]:
    the three classes it names, and any other class. *)
Inductive load_exn : Type :=
| YAMLError (text : string)
| JSONDecodeError (text : string)
| OSError (text : string)
| OtherError (class_name : string).

(** What the module is run with. *)
Record Environment : Type := mkEnvironment {
  YAML_AVAILABLE : bool;
  read_text : Path -> load_exn + string;
  yaml_safe_load : string -> load_exn + value;
  json_loads : string -> load_exn + value;
  path_exists : Path -> bool;
  rglob : Path -> string -> list Path;
  help_text : string
}.

(** An exception that leaves a function of the module. *)
Inductive py_exception : Type :=
| Uncaught (e : load_exn)
| NameError (name : string)
| KeyError (key : string)
| Detection (e : exn).

Inductive run (A : Type) : Type :=
| Returns (a : A)
| Raises (e : py_exception).

Arguments Returns {A} a.
Arguments Raises {A} e.

(** The body of the [try] in [load_config_file]. *)
Definition load_config_body (env : Environment) (file_path : Path)
  : load_exn + (value * option string) :=
  match read_text env file_path with
  | inl e => inl e
  | inr content =>
      let suffix := lower (path_suffix file_path) in
      if str_in suffix [".yaml"; ".yml"] then
        if negb (YAML_AVAILABLE env)
        then inr (VNone, Some "PyYAML is not installed. Run: pip install pyyaml")
        else match yaml_safe_load env content with
             | inl e => inl e
             | inr data => inr (data, None)
             end
      else if String.eqb suffix ".json" then
        match json_loads env content with
        | inl e => inl e
        | inr data => inr (data, None)
        end
      else inr (VNone, Some ("Unsupported file extension: " ++ suffix))
  end.

(** [load_config_file]. The first [except] clause names [yaml.YAMLError]:
    when the import of [yaml] failed, evaluating that clause for any
    exception of the body raises [NameError]. *)
Definition load_config_file (env : Environment) (file_path : Path)
  : run (value * option string) :=
  match load_config_body env file_path with
  | inr loaded => Returns loaded
  | inl e =>
      if negb (YAML_AVAILABLE env) then Raises (NameError "yaml")
      else match e with
           | YAMLError text => Returns (VNone, Some ("YAML parsing error: " ++ text))
           | JSONDecodeError text =>
               Returns (VNone, Some ("JSON parsing error: " ++ text))
           | OSError text => Returns (VNone, Some ("File read error: " ++ text))
           | OtherError _ => Raises (Uncaught e)
           end
  end.

(** [validate_file(file_path)], the file loaded by [load_config_file]. *)
Definition validate_file_at (env : Environment) (file_path : Path)
  : run ValidationResult :=
  match load_config_file env file_path with
  | Raises e => Raises e
  | Returns loaded =>
      match validate_file (path_str file_path) loaded with
      | Ok result => Returns result
      | Raise e => Raises (Detection e)
      end
  end.

(** [if "test" in file_path.parts or "tests" in file_path.parts]. *)
Definition in_test_directory (file_path : Path) : bool :=
  str_in "test" (path_parts file_path) || str_in "tests" (path_parts file_path).

(** The inner loop of [validate_directory], over the files of one pattern. *)
Fixpoint validate_files (env : Environment) (files : list Path)
         (results : list ValidationResult) : run (list ValidationResult) :=
  match files with
  | [] => Returns results
  | file_path :: rest =>
      if in_test_directory file_path then validate_files env rest results
      else match validate_file_at env file_path with
           | Raises e => Raises e
           | Returns result => validate_files env rest (results ++ [result])
           end
  end.

(** The outer loop of [validate_directory], over the extensions. *)
Fixpoint validate_extensions (env : Environment) (directory : Path)
         (extensions : list string) (results : list ValidationResult)
  : run (list ValidationResult) :=
  match extensions with
  | [] => Returns results
  | ext :: rest =>
      match validate_files env (rglob env directory ("*" ++ ext)) results with
      | Raises e => Raises e
      | Returns results' => validate_extensions env directory rest results'
      end
  end.

Definition validate_directory (env : Environment) (directory : Path)
  : run (list ValidationResult) :=
  validate_extensions env directory [".yaml"; ".yml"; ".json"] [].

(** The loop of [print_schema] that looks the kind up, with its [break]. *)
Fixpoint find_config_type (members : list ConfigType) (config_type_name : string)
  : option ConfigType :=
  match members with
  | [] => None
  | cfg_type :: rest =>
      if String.eqb (lower (ConfigType_value cfg_type)) (lower config_type_name)
      then Some cfg_type
      else find_config_type rest config_type_name
  end.

(** [field_type.__name__ if isinstance(field_type, type)
     else " | ".join(t.__name__ for t in field_type)]. *)
Definition field_type_label (field_type : expected_type) : string :=
  match field_type with
  | Single t => type_name t
  | Union ts => join " | " (map type_name ts)
  end.

(** [cons.get(key, '∞')], as it is interpolated. *)
Definition bound_label (bounds : constraint) (key : string) : fpart :=
  match dict_get key bounds with
  | Some bound => Fmt (num_value bound)
  | None => Lit "∞"
  end.

(** The line [print_schema] prints for one field. *)
Definition print_field (schema : Schema) (out : fstring)
           (entry : string * expected_type) : fstring :=
  let field_name := fst entry in
  let label := field_type_label (snd entry) in
  let constraints_text :=
    match constraints schema with
    | Some table =>
        match dict_get field_name table with
        | Some bounds =>
            [Lit " (range: "; bound_label bounds "min"; Lit " to ";
             bound_label bounds "max"; Lit ")"]
        | None => []
        end
    | None => []
    end in
  print (Lit ("  - " ++ field_name ++ ": " ++ label) :: constraints_text) out.

(** The example documents [print_schema] shows. *)
Definition schema_example (config_type : ConfigType) : string :=
  match config_type with
  | ERA_CONFIG => "
type: EraConfig
name: Ancient
description: Bronze age warriors
archetypes:
  - id: spearman
    base_health: 100
    base_move_speed: 5
    weapon: bronze_spear
upgrades:
  - name: Veterans
    hit_chance_multiplier: 1.2
"
  | UNIT_ARCHETYPE => "
type: UnitArchetype
id: spearman
name: Spearman
base_health: 100
base_move_speed: 5.0
weapon: bronze_spear
prefab: Units/Ancient/Spearman
"
  | WEAPON_STATS => "
type: WeaponStats
name: bronze_spear
shots_per_burst: 1
fire_rate: 1.0
base_hit_chance: 0.8
base_damage: 25
effective_range: 2.0
range_curve:
  - [0, 1.0]
  - [2, 1.0]
  - [3, 0.5]
"
  | UPGRADE_DEFINITION => "
type: UpgradeDefinition
name: Veterans
description: Experienced soldiers with better accuracy
hit_chance_multiplier: 1.2
damage_multiplier: 1.1
cost: 100
"
  end.

Definition print_schema (config_type_name : string) (out : fstring)
  : run fstring :=
  match find_config_type ConfigType_members config_type_name with
  | None =>
      let out1 := print [Lit ("Unknown config type: " ++ config_type_name)] out in
      Returns
        (print [Lit ("Available types: "
                     ++ join ", " (map ConfigType_value ConfigType_members))]
               out1)
  | Some config_type =>
      match schemas_get config_type SCHEMAS with
      | None => Raises (KeyError (ConfigType_str config_type))
      | Some schema =>
          let out1 :=
            print [Lit (nl ++ ConfigType_value config_type ++ " Schema")] out in
          let out2 := print [Lit (str_repeat "=" 40)] out1 in
          let out3 := print [Lit (nl ++ "Required Fields:")] out2 in
          let out4 := fold_left (print_field schema) (required_fields schema) out3 in
          let out5 :=
            match optional_fields schema with
            | Some (entry :: rest) =>
                fold_left (print_field schema) (entry :: rest)
                          (print [Lit (nl ++ "Optional Fields:")] out4)
            | _ => out4
            end in
          let out6 := print [Lit (nl ++ "Example (YAML):")] out5 in
          Returns (print [Lit (schema_example config_type)] out6)
      end
  end.

(** The parsed command line: [args.command] with its argument. *)
Inductive arguments : Type :=
| ArgsValidate (file : Path)
| ArgsValidateAll (directory : Path)
| ArgsSchema (type : string)
| ArgsNone.

(** The [validate] branch of [main], once the file is known to exist. *)
Definition report_result (result : ValidationResult) (out : fstring)
  : fstring * Z :=
  let out1 := print [Lit (nl ++ "Validating: " ++ file_path result)] out in
  let out2 :=
    print [Lit ("Detected type: "
                ++ match config_type result with
                   | Some ct => ConfigType_value ct
                   | None => "Unknown"
                   end)] out1 in
  let out3 :=
    fold_left (fun o error => print (Lit "  " :: ValidationError_str error) o)
              (errors result) out2 in
  let out4 :=
    fold_left (fun o warning => print (Lit "  " :: ValidationError_str warning) o)
              (warnings result) out3 in
  if is_valid result then
    let out5 := print [Lit (nl ++ "✓ Validation passed")] out4 in
    match warnings result with
    | [] => (out5, 0%Z)
    | _ =>
        (print [Lit ("  (" ++ nat_to_string (List.length (warnings result))
                     ++ " warnings)")] out5, 0%Z)
    end
  else
    (print [Lit (nl ++ "✗ Validation failed ("
                 ++ nat_to_string (List.length (errors result)) ++ " errors)")]
           out4, 1%Z).

(** The state of the loop over the results in the [validate-all] branch. *)
Record tally : Type := mkTally {
  tally_out : fstring;
  total_errors : nat;
  total_warnings : nat;
  failed_files : list string
}.

(** One iteration of that loop. *)
Definition tally_result (t : tally) (result : ValidationResult) : tally :=
  let out1 := print_no_end [Lit (nl ++ file_path result ++ ": ")] (tally_out t) in
  let '(out2, failed) :=
    if is_valid result then
      let out_ok := print_no_end [Lit "✓ OK"] out1 in
      (match warnings result with
       | [] => print [] out_ok
       | _ => print [Lit (" (" ++ nat_to_string (List.length (warnings result))
                          ++ " warnings)")] out_ok
       end, failed_files t)
    else
      let out_failed :=
        print [Lit ("✗ FAILED (" ++ nat_to_string (List.length (errors result))
                    ++ " errors)")] out1 in
      (fold_left (fun o error => print (Lit "    " :: ValidationError_str error) o)
                 (errors result) out_failed,
       (failed_files t ++ [file_path result])%list) in
  mkTally out2
          (total_errors t + List.length (errors result))
          (total_warnings t + List.length (warnings result))
          failed.

(** The [validate-all] branch of [main], from the results on. *)
Definition report_results (results : list ValidationResult) (out : fstring)
  : fstring * Z :=
  match results with
  | [] => (print [Lit "No config files found"] out, 0%Z)
  | _ =>
      let t := fold_left tally_result results (mkTally out 0 0 []) in
      let out1 := print [Lit (nl ++ str_repeat "=" 40)] (tally_out t) in
      let out2 :=
        print [Lit ("Total: " ++ nat_to_string (List.length results) ++ " files, "
                    ++ nat_to_string (total_errors t) ++ " errors, "
                    ++ nat_to_string (total_warnings t) ++ " warnings")] out1 in
      match failed_files t with
      | [] => (out2, 0%Z)
      | _ =>
          let out3 := print [Lit (nl ++ "Failed files:")] out2 in
          (fold_left (fun o name => print [Lit ("  - " ++ name)] o)
                     (failed_files t) out3, 1%Z)
      end
  end.

(** [main], from the parsed arguments: what it prints and returns. *)
Definition main (env : Environment) (args : arguments) : run (fstring * Z) :=
  match args with
  | ArgsValidate file =>
      if negb (path_exists env file)
      then Returns (print [Lit ("Error: File not found: " ++ path_str file)] [],
                    1%Z)
      else match validate_file_at env file with
           | Raises e => Raises e
           | Returns result => Returns (report_result result [])
           end
  | ArgsValidateAll directory =>
      if negb (path_exists env directory)
      then Returns (print [Lit ("Error: Directory not found: "
                                ++ path_str directory)] [], 1%Z)
      else match validate_directory env directory with
           | Raises e => Raises e
           | Returns results => Returns (report_results results [])
           end
  | ArgsSchema type =>
      match print_schema type [] with
      | Raises e => Raises e
      | Returns out => Returns (out, 0%Z)
      end
  | ArgsNone => Returns ([Lit (help_text env)], 0%Z)
  end.

(** A sample run. The directory [configs] holds the files below, one of
    them under [tests]; the text of a file is its own name, and the parsers
    know the documents of four of them. *)
Definition config_file (name suffix : string) : Path :=
  mkPath ("configs/" ++ name ++ suffix) suffix ["configs"; name ++ suffix].

Definition fixture_file (name suffix : string) : Path :=
  mkPath ("configs/tests/" ++ name ++ suffix) suffix
         ["configs"; "tests"; name ++ suffix].

Definition sample_documents : list (string * value) :=
  [("configs/weapon.json", VDict weapon_with_bad_curve);
   ("configs/unit.yaml", VDict archetype_with_extra_field);
   ("configs/numeric.yml", VDict document_with_numeric_type);
   ("configs/tests/fixture.json", VList [])].

Definition sample_environment (yaml_available : bool) (files : list Path)
  : Environment :=
  mkEnvironment yaml_available
    (fun file_path => inr (path_str file_path))
    (fun content =>
       match dict_get content sample_documents with
       | Some data => inr data
       | None => inl (YAMLError "mapping values are not allowed here")
       end)
    (fun content =>
       match dict_get content sample_documents with
       | Some data => inr data
       | None => inl (JSONDecodeError "Expecting value: line 1 column 1 (char 0)")
       end)
    (fun _ => true)
    (fun _ pattern =>
       filter (fun file_path => String.eqb ("*" ++ path_suffix file_path) pattern)
              files)
    "usage: config_validator.py [-h] {validate,validate-all,schema} ...".

(** The files a directory validation goes through, in its order. *)
Definition visited_files (env : Environment) (directory : Path) : list Path :=
  filter (fun file_path => negb (in_test_directory file_path))
         (rglob env directory "*.yaml" ++ rglob env directory "*.yml"
          ++ rglob env directory "*.json")%list.

(* ================================================================== *)
(** ** The cases of the repository's test suite

    Each assertion of [tests/test_config_validator.py] about the functions
    embedded above, evaluated on the embedding. *)

Example test_detect_by_type_field :
  detect_config_type [("type", VStr "EraConfig"); ("name", VStr "Ancient")]
  = Ok (Some ERA_CONFIG)
  /\ detect_config_type [("type", VStr "UnitArchetype"); ("id", VStr "spearman")]
     = Ok (Some UNIT_ARCHETYPE)
  /\ detect_config_type [("type", VStr "WeaponStats"); ("name", VStr "sword")]
     = Ok (Some WEAPON_STATS)
  /\ detect_config_type [("type", VStr "UpgradeDefinition"); ("name", VStr "Veterans")]
     = Ok (Some UPGRADE_DEFINITION).
Proof. repeat split. Qed.

Example test_detect_by_heuristics :
  detect_config_type [("name", VStr "Ancient"); ("archetypes", VList [])]
  = Ok (Some ERA_CONFIG)
  /\ detect_config_type
       [("id", VStr "spearman"); ("base_health", VInt 100);
        ("base_move_speed", VInt 5)]
     = Ok (Some UNIT_ARCHETYPE)
  /\ detect_config_type
       [("name", VStr "sword"); ("shots_per_burst", VInt 1);
        ("fire_rate", VFloat float_1_0)]
     = Ok (Some WEAPON_STATS)
  /\ detect_config_type
       [("name", VStr "Veterans"); ("hit_chance_multiplier", VFloat float_1_2)]
     = Ok (Some UPGRADE_DEFINITION)
  /\ detect_config_type [("unknown_field", VStr "value")] = Ok None.
Proof. repeat split. Qed.

Example test_validate_field_type :
  validate_field_type (VStr "hello") (Single Tstr) "name" (test_result None)
  = (true, test_result None)
  /\ validate_field_type (VInt 123) (Single Tstr) "name" (test_result None)
     = (false,
        add_error "name" [Lit "Expected str, got int"] (test_result None))
  /\ validate_field_type (VInt 100) int_or_float "health" (test_result None)
     = (true, test_result None)
  /\ validate_field_type (VFloat float_99_5) int_or_float "health"
       (test_result None)
     = (true, test_result None)
  /\ validate_field_type (VStr "100") int_or_float "health" (test_result None)
     = (false,
        add_error "health" [Lit "Expected int or float, got str"]
          (test_result None)).
Proof. repeat split. Qed.

Example test_validate_constraints :
  let c := [("min", NInt 0); ("max", NInt 100)] in
  validate_constraints (VInt 50) c "health" (test_result None) = test_result None
  /\ validate_constraints (VInt (-10)) c "health" (test_result None)
     = add_error "health" (below_minimum_message (VInt (-10)) (NInt 0))
         (test_result None)
  /\ validate_constraints (VInt 150) c "health" (test_result None)
     = add_error "health" (exceeds_maximum_message (VInt 150) (NInt 100))
         (test_result None).
Proof. repeat split. Qed.

Example test_validate_curve :
  validate_curve
    (VList [VList [VInt 0; VFloat float_1_0];
            VList [VInt 1; VFloat float_0_8];
            VList [VInt 2; VFloat float_0_5]])
    "range_curve" (test_result None)
  = test_result None
  /\ errors (validate_curve
               (VList [VList [VInt 0; VFloat float_1_0];
                       VList [VInt 1; VFloat float_0_8; VFloat float_0_5]])
               "range_curve" (test_result None))
     = [mkError "range_curve[1]" [Lit "Each curve point must be [x, y]"] "error"]
  /\ errors (validate_curve
               (VList [VList [VInt 0; VStr "one"];
                       VList [VInt 1; VFloat float_0_8]])
               "range_curve" (test_result None))
     = [mkError "range_curve[0][1]"
          [Lit "Y value must be numeric, got str"] "error"].
Proof. repeat split. Qed.

Example test_unit_archetype :
  is_valid (validate_config spearman UNIT_ARCHETYPE
              (test_result (Some UNIT_ARCHETYPE)) "") = true
  /\ List.length
       (errors (validate_config
                  [("type", VStr "UnitArchetype"); ("id", VStr "spearman")]
                  UNIT_ARCHETYPE (test_result (Some UNIT_ARCHETYPE)) "")) = 2%nat
  /\ existsb (fun e => mentions "below minimum" (message e))
       (errors (validate_config
                  [("type", VStr "UnitArchetype"); ("id", VStr "spearman");
                   ("base_health", VInt (-100));
                   ("base_move_speed", VFloat float_5_0)]
                  UNIT_ARCHETYPE (test_result (Some UNIT_ARCHETYPE)) "")) = true
  /\ validate_config archetype_with_extra_field UNIT_ARCHETYPE
       (test_result (Some UNIT_ARCHETYPE)) ""
     = add_warning "unknown_field" [Lit "Unknown field 'unknown_field'"]
         (test_result (Some UNIT_ARCHETYPE)).
Proof. repeat split. Qed.

Example test_weapon_stats :
  is_valid (validate_config
              [("type", VStr "WeaponStats"); ("name", VStr "bronze_spear");
               ("shots_per_burst", VInt 1); ("fire_rate", VFloat float_1_0);
               ("base_hit_chance", VFloat float_0_8); ("base_damage", VInt 25)]
              WEAPON_STATS (test_result (Some WEAPON_STATS)) "") = true
  /\ is_valid (validate_config rifle WEAPON_STATS
                 (test_result (Some WEAPON_STATS)) "") = true
  /\ existsb (fun e => mentions "exceeds maximum" (message e))
       (errors (validate_config
                  [("type", VStr "WeaponStats"); ("name", VStr "sword");
                   ("shots_per_burst", VInt 1); ("fire_rate", VFloat float_1_0);
                   ("base_hit_chance", VFloat float_1_5);
                   ("base_damage", VInt 30)]
                  WEAPON_STATS (test_result (Some WEAPON_STATS)) "")) = true.
Proof. repeat split. Qed.

Example test_upgrade_definition :
  is_valid (validate_config
              [("type", VStr "UpgradeDefinition"); ("name", VStr "Veterans");
               ("hit_chance_multiplier", VFloat float_1_2);
               ("damage_multiplier", VFloat float_1_1)]
              UPGRADE_DEFINITION (test_result (Some UPGRADE_DEFINITION)) "")
  = true
  /\ is_valid (validate_config
                 [("type", VStr "UpgradeDefinition");
                  ("name", VStr "Basic Training")]
                 UPGRADE_DEFINITION (test_result (Some UPGRADE_DEFINITION)) "")
     = true
  /\ is_valid (validate_config
                 [("type", VStr "UpgradeDefinition"); ("name", VStr "OP Buff");
                  ("damage_multiplier", VFloat float_15_0)]
                 UPGRADE_DEFINITION (test_result (Some UPGRADE_DEFINITION)) "")
     = false.
Proof. repeat split. Qed.

Example test_era_config :
  is_valid (validate_config
              [("type", VStr "EraConfig"); ("name", VStr "Ancient");
               ("archetypes",
                VList [VDict [("id", VStr "spearman"); ("base_health", VInt 100);
                              ("base_move_speed", VInt 5)]])]
              ERA_CONFIG (test_result (Some ERA_CONFIG)) "") = true
  /\ errors (validate_config
               [("type", VStr "EraConfig"); ("name", VStr "Ancient")]
               ERA_CONFIG (test_result (Some ERA_CONFIG)) "")
     = [mkError "archetypes"
          [Lit "Required field 'archetypes' is missing"] "error"].
Proof. repeat split. Qed.

Example test_file_validation :
  validate_file "unit.json"
    (VDict [("type", VStr "UnitArchetype"); ("id", VStr "spearman");
            ("base_health", VInt 100); ("base_move_speed", VFloat float_5_0)],
     None)
  = Ok (new_result "unit.json" (Some UNIT_ARCHETYPE))
  /\ validate_file "list.json"
       (VList [VStr "list"; VStr "not"; VStr "dict"], None)
     = Ok (add_error "root" [Lit "Expected dictionary, got list"]
             (new_result "list.json" None)).
Proof. repeat split. Qed.

Example test_is_valid :
  is_valid (test_result (Some ERA_CONFIG)) = true
  /\ is_valid (add_error "field" [Lit "error message"]
                 (test_result (Some ERA_CONFIG))) = false
  /\ is_valid (add_warning "field" [Lit "warning message"]
                 (test_result (Some ERA_CONFIG))) = true.
Proof. repeat split. Qed.

(* ================================================================== *)
(** ** Results only grow *)

Lemma emits_nil (r : ValidationResult) : emits [] [] r = r.
Proof.
  destruct r as [fp ct es ws]; unfold emits; simpl.
  now rewrite !app_nil_r.
Qed.

Lemma emits_emits (es1 ws1 es2 ws2 : list ValidationError) (r : ValidationResult) :
  emits es2 ws2 (emits es1 ws1 r) = emits (es1 ++ es2) (ws1 ++ ws2) r.
Proof.
  unfold emits; simpl. now rewrite !app_assoc.
Qed.

Lemma add_error_emits (p : string) (msg : fstring) (r : ValidationResult) :
  add_error p msg r = emits [mkError p msg "error"] [] r.
Proof.
  unfold add_error, emits. now rewrite app_nil_r.
Qed.

Lemma add_warning_emits (p : string) (msg : fstring) (r : ValidationResult) :
  add_warning p msg r = emits [] [mkError p msg "warning"] r.
Proof.
  unfold add_warning, emits. now rewrite app_nil_r.
Qed.

Lemma appender_add_error (p : string) (msg : fstring) : appender (add_error p msg).
Proof.
  exists [mkError p msg "error"], []. apply add_error_emits.
Qed.

(** What an appender adds is what it yields from the empty result. *)
Lemma appender_frame (f : ValidationResult -> ValidationResult) :
  appender f ->
  forall r, f r = emits (errors (f fresh)) (warnings (f fresh)) r.
Proof.
  intros [es [ws Hf]] r. now rewrite (Hf fresh), Hf.
Qed.

Lemma appender_errors (f : ValidationResult -> ValidationResult) :
  appender f -> forall r, errors (f r) = (errors r ++ errors (f fresh))%list.
Proof.
  intros Hf r. now rewrite (appender_frame f Hf r).
Qed.

Lemma fold_errors {A : Type} (step : ValidationResult -> A -> ValidationResult)
      (xs : list A) :
  (forall x, appender (fun r => step r x)) ->
  forall r, errors (fold_left step xs r)
            = (errors r ++ flat_map (fun x => errors (step fresh x)) xs)%list.
Proof.
  intro Hstep. induction xs as [|x xs IH]; intro r; simpl.
  - now rewrite app_nil_r.
  - rewrite IH, (appender_errors (fun r => step r x) (Hstep x) r).
    now rewrite app_assoc.
Qed.

Lemma error_appender_appender (f : ValidationResult -> ValidationResult) :
  error_appender f -> appender f.
Proof.
  intros [es Hf]. now exists es, [].
Qed.

Lemma error_appender_id : error_appender (fun r => r).
Proof.
  exists []. intro r. symmetry; apply emits_nil.
Qed.

Lemma error_appender_add_error (p : string) (msg : fstring) :
  error_appender (add_error p msg).
Proof.
  exists [mkError p msg "error"]. apply add_error_emits.
Qed.

Lemma error_appender_compose (f g : ValidationResult -> ValidationResult) :
  error_appender f -> error_appender g -> error_appender (fun r => g (f r)).
Proof.
  intros [es1 Hf] [es2 Hg].
  exists (es1 ++ es2)%list. intro r.
  now rewrite Hf, Hg, emits_emits.
Qed.

Lemma error_appender_fold {A : Type}
      (step : ValidationResult -> A -> ValidationResult) (xs : list A) :
  (forall x, error_appender (fun r => step r x)) ->
  error_appender (fun r => fold_left step xs r).
Proof.
  intro Hstep. induction xs as [|x xs IH]; simpl.
  - apply error_appender_id.
  - apply (error_appender_compose (fun r => step r x)
                                  (fun r => fold_left step xs r)); auto.
Qed.

Lemma error_appender_warnings (f : ValidationResult -> ValidationResult) :
  error_appender f -> forall r, warnings (f r) = warnings r.
Proof.
  intros [es Hf] r. rewrite Hf. simpl. apply app_nil_r.
Qed.

(** Closes [error_appender f] once every test in [f] has been decided. *)
Ltac close_appender :=
  unfold error_appender; eexists; intro;
  rewrite ?add_error_emits, ?emits_emits;
  first [ reflexivity | symmetry; apply emits_nil ].

Lemma validate_field_type_appends (v : value) (e : expected_type) (p : string) :
  error_appender (fun r => snd (validate_field_type v e p r)).
Proof.
  unfold validate_field_type.
  destruct e; destruct (negb _); simpl; close_appender.
Qed.

Lemma validate_constraints_appends (v : value) (c : constraint) (p : string) :
  error_appender (validate_constraints v c p).
Proof.
  unfold validate_constraints.
  destruct (as_num v) as [n|]; [|close_appender].
  destruct (dict_get "min" c) as [lo|]; [destruct (num_lt n lo)|];
    (destruct (dict_get "max" c) as [hi|]; [destruct (num_gt n hi)|]);
    close_appender.
Qed.

Lemma check_declared_constraints_appends
      (schema : Schema) (name : string) (v : value) (p : string) :
  error_appender (check_declared_constraints schema name v p).
Proof.
  unfold check_declared_constraints.
  destruct (constraints schema) as [table|]; [|close_appender].
  destruct (dict_get name table) as [c|]; [|close_appender].
  apply validate_constraints_appends.
Qed.

Lemma validate_curve_point_appends (p : string) (index : nat) (point : value) :
  error_appender (validate_curve_point p index point).
Proof.
  unfold validate_curve_point.
  destruct (sequence_items point) as [[|x [|y [|z items]]]|]; try close_appender.
  destruct (negb (isinstance x numeric)), (negb (isinstance y numeric));
    close_appender.
Qed.

Lemma validate_curve_points_appends (p : string) (points : list value) :
  forall index, error_appender (validate_curve_points p index points).
Proof.
  induction points as [|point rest IH]; intro index; simpl.
  - apply error_appender_id.
  - apply (error_appender_compose (validate_curve_point p index point)
                                  (validate_curve_points p (S index) rest)).
    + apply validate_curve_point_appends.
    + apply IH.
Qed.

Lemma validate_curve_appends (curve : value) (p : string) :
  error_appender (validate_curve curve p).
Proof.
  destruct curve; simpl; try apply error_appender_add_error.
  apply validate_curve_points_appends.
Qed.

Lemma field_checks_append (schema : Schema) (name : string) (v : value)
      (ty : expected_type) (p : string) :
  error_appender (fun r =>
    check_declared_constraints schema name v p
      (snd (validate_field_type v ty p r))).
Proof.
  apply (error_appender_compose
           (fun r => snd (validate_field_type v ty p r))
           (check_declared_constraints schema name v p)).
  - apply validate_field_type_appends.
  - apply check_declared_constraints_appends.
Qed.

Lemma required_step_appends (schema : Schema) (data : document)
      (prefix : string) (entry : string * expected_type) :
  error_appender (fun r => required_step schema data prefix r entry).
Proof.
  unfold required_step.
  destruct (dict_get (fst entry) data) as [v|];
    [apply field_checks_append | apply error_appender_add_error].
Qed.

Lemma optional_step_appends (schema : Schema) (data : document)
      (prefix : string) (entry : string * expected_type) :
  error_appender (fun r => optional_step schema data prefix r entry).
Proof.
  unfold optional_step.
  destruct (dict_get (fst entry) data) as [v|]; [|apply error_appender_id].
  set (p := make_field_path prefix (fst entry)).
  pose proof (field_checks_append schema (fst entry) v (snd entry) p) as Hchecks.
  assert (Hall : error_appender (fun r =>
            if endswith (fst entry) "_curve" && isinstance v (Single Tlist)
            then validate_curve v p
                   (check_declared_constraints schema (fst entry) v p
                      (snd (validate_field_type v (snd entry) p r)))
            else check_declared_constraints schema (fst entry) v p
                   (snd (validate_field_type v (snd entry) p r)))).
  { destruct (endswith (fst entry) "_curve" && isinstance v (Single Tlist));
      [|exact Hchecks].
    apply (error_appender_compose _ (validate_curve v p) Hchecks).
    apply validate_curve_appends. }
  destruct v; try exact Hall. apply error_appender_id.
Qed.

Lemma unknown_step_emits (schema : Schema) (prefix name : string)
      (r : ValidationResult) :
  unknown_step schema prefix r name
  = emits [] (warnings (unknown_step schema prefix fresh name)) r.
Proof.
  unfold unknown_step. destruct (negb _); simpl.
  - apply add_warning_emits.
  - symmetry; apply emits_nil.
Qed.

Lemma unknown_loop_emits (schema : Schema) (prefix : string) (names : list string) :
  forall r,
    fold_left (unknown_step schema prefix) names r
    = emits [] (flat_map (fun k => warnings (unknown_step schema prefix fresh k))
                         names) r.
Proof.
  induction names as [|k names IH]; intro r; simpl.
  - symmetry; apply emits_nil.
  - rewrite IH, (unknown_step_emits schema prefix k r), emits_emits.
    reflexivity.
Qed.

Lemma schema_loops_append (schema : Schema) (data : document) (prefix : string) :
  error_appender (schema_loops schema data prefix).
Proof.
  unfold schema_loops.
  apply (error_appender_compose
           (fun r => fold_left (required_step schema data prefix)
                       (required_fields schema) r)
           (fun r => fold_left (optional_step schema data prefix)
                       (optional_fields_of schema) r)).
  - apply error_appender_fold. intro. apply required_step_appends.
  - apply error_appender_fold. intro. apply optional_step_appends.
Qed.

Lemma validate_config_unfold (data : document) (ct : ConfigType)
      (schema : Schema) (prefix : string) (r : ValidationResult) :
  schemas_get ct SCHEMAS = Some schema ->
  validate_config data ct r prefix
  = fold_left (unknown_step schema prefix) (dict_keys data)
      (schema_loops schema data prefix r).
Proof.
  intro Hs. unfold validate_config, schema_loops. now rewrite Hs.
Qed.

Lemma validate_config_appends (data : document) (ct : ConfigType)
      (prefix : string) :
  appender (fun r => validate_config data ct r prefix).
Proof.
  destruct (schemas_get ct SCHEMAS) as [schema|] eqn:Hs.
  - destruct (schema_loops_append schema data prefix) as [es Hes].
    exists es, (flat_map (fun k => warnings (unknown_step schema prefix fresh k))
                         (dict_keys data)).
    intro r.
    rewrite (validate_config_unfold data ct schema prefix r Hs).
    now rewrite unknown_loop_emits, Hes, emits_emits, app_nil_r.
  - unfold validate_config. rewrite Hs. apply appender_add_error.
Qed.

(** The errors of a validation are those of the required fields, in schema
    order, followed by those of the optional fields. *)
Lemma validate_config_errors (data : document) (ct : ConfigType)
      (schema : Schema) (prefix : string) (r : ValidationResult) :
  schemas_get ct SCHEMAS = Some schema ->
  errors (validate_config data ct r prefix)
  = (errors r
     ++ flat_map (fun e => errors (required_step schema data prefix fresh e))
                 (required_fields schema)
     ++ flat_map (fun e => errors (optional_step schema data prefix fresh e))
                 (optional_fields_of schema))%list.
Proof.
  intro Hs.
  rewrite (validate_config_unfold data ct schema prefix r Hs).
  rewrite unknown_loop_emits. simpl. rewrite app_nil_r.
  unfold schema_loops.
  rewrite (fold_errors (optional_step schema data prefix));
    [|intro; apply error_appender_appender, optional_step_appends].
  rewrite (fold_errors (required_step schema data prefix));
    [|intro; apply error_appender_appender, required_step_appends].
  now rewrite app_assoc.
Qed.

(** The warnings of a validation are those of the document's own fields,
    in document order. *)
Lemma validate_config_warnings (data : document) (ct : ConfigType)
      (schema : Schema) (prefix : string) (r : ValidationResult) :
  schemas_get ct SCHEMAS = Some schema ->
  warnings (validate_config data ct r prefix)
  = (warnings r
     ++ flat_map (fun k => warnings (unknown_step schema prefix fresh k))
                 (dict_keys data))%list.
Proof.
  intro Hs.
  rewrite (validate_config_unfold data ct schema prefix r Hs).
  rewrite unknown_loop_emits. simpl.
  now rewrite (error_appender_warnings _ (schema_loops_append schema data prefix)).
Qed.

(* ================================================================== *)
(** ** The ordering of numbers *)

Lemma Qcompare_Lt_Gt (p q : Q) : Qcompare p q = Lt <-> Qcompare q p = Gt.
Proof.
  rewrite <- Qlt_alt, <- Qgt_alt. reflexivity.
Qed.

Lemma Qcompare_Eq_sym (p q : Q) : Qcompare p q = Eq -> Qcompare q p = Eq.
Proof.
  rewrite <- !Qeq_alt. intro H. now symmetry.
Qed.

Lemma ext_compare_Lt_Gt (a b : ext) :
  ext_compare a b = Some Lt <-> ext_compare b a = Some Gt.
Proof.
  destruct a as [|s|p], b as [|t|q]; simpl; try (split; discriminate).
  - destruct s, t; simpl; split; congruence.
  - destruct s; split; congruence.
  - destruct t; split; congruence.
  - split; intro H; injection H as H; f_equal; now apply Qcompare_Lt_Gt.
Qed.

Lemma ext_compare_Eq_sym (a b : ext) :
  ext_compare a b = Some Eq -> ext_compare b a = Some Eq.
Proof.
  destruct a as [|s|p], b as [|t|q]; simpl; try discriminate.
  - destruct s, t; simpl; congruence.
  - destruct s; discriminate.
  - destruct t; discriminate.
  - intro H; injection H as H; f_equal; now apply Qcompare_Eq_sym.
Qed.

(** Decides the cases of a comparison that involve an infinity. *)
Ltac split_signs :=
  repeat match goal with s : bool |- _ => destruct s end; simpl.

Lemma ext_lt_le_trans (a b c : ext) :
  ext_compare a b = Some Lt -> ext_le b c -> ext_compare a c = Some Lt.
Proof.
  unfold ext_le.
  destruct a as [|s|p], b as [|t|q], c as [|u|w]; split_signs;
    intros H [H'|H']; try congruence.
  - injection H as H; injection H' as H'; f_equal; rewrite <- Qlt_alt in *.
    now apply Qlt_trans with q.
  - injection H as H; injection H' as H'; f_equal; rewrite <- Qlt_alt in *.
    rewrite <- Qeq_alt in H'. now rewrite <- H'.
Qed.

Lemma ext_le_lt_trans (a b c : ext) :
  ext_le a b -> ext_compare b c = Some Lt -> ext_compare a c = Some Lt.
Proof.
  unfold ext_le.
  destruct a as [|s|p], b as [|t|q], c as [|u|w]; split_signs;
    intros [H|H] H'; try congruence.
  - injection H as H; injection H' as H'; f_equal; rewrite <- Qlt_alt in *.
    now apply Qlt_trans with q.
  - injection H as H; injection H' as H'; f_equal; rewrite <- Qlt_alt in *.
    rewrite <- Qeq_alt in H. now rewrite H.
Qed.

Lemma ext_lt_irrefl (a : ext) : ext_compare a a <> Some Lt.
Proof.
  destruct a as [|s|p]; simpl; try discriminate.
  - destruct s; discriminate.
  - intro H; injection H as H. rewrite <- Qlt_alt in H.
    now apply Qlt_irrefl in H.
Qed.

Lemma num_le_ext (a b : num) :
  num_le a b = true <-> ext_le (num_ext a) (num_ext b).
Proof.
  unfold num_le, num_compare, ext_le.
  destruct (ext_compare (num_ext a) (num_ext b)) as [[| |]|]; split;
    intros; try reflexivity; try discriminate; auto;
    destruct H; discriminate.
Qed.

Lemma num_lt_ext (a b : num) :
  num_lt a b = true <-> ext_compare (num_ext a) (num_ext b) = Some Lt.
Proof.
  unfold num_lt, num_compare.
  destruct (ext_compare (num_ext a) (num_ext b)) as [[| |]|]; split;
    intros; try reflexivity; discriminate.
Qed.

Lemma num_gt_ext (a b : num) :
  num_gt a b = true <-> ext_compare (num_ext b) (num_ext a) = Some Lt.
Proof.
  unfold num_gt, num_compare. rewrite ext_compare_Lt_Gt.
  destruct (ext_compare (num_ext a) (num_ext b)) as [[| |]|]; split;
    intros; try reflexivity; discriminate.
Qed.

Lemma num_eq_ext (a b : num) :
  num_eq a b = true <-> ext_compare (num_ext a) (num_ext b) = Some Eq.
Proof.
  unfold num_eq, num_compare.
  destruct (ext_compare (num_ext a) (num_ext b)) as [[| |]|]; split;
    intros; try reflexivity; discriminate.
Qed.

(** [lo <= n] rules out [n < lo]. *)
Lemma num_le_not_lt (lo n : num) : num_le lo n = true -> num_lt n lo = false.
Proof.
  intro H. apply num_le_ext in H.
  destruct (num_lt n lo) eqn:Hlt; [|reflexivity].
  apply num_lt_ext in Hlt.
  exfalso. apply (ext_lt_irrefl (num_ext n)).
  now apply ext_lt_le_trans with (num_ext lo).
Qed.

(** [n <= hi] rules out [n > hi]. *)
Lemma num_le_not_gt (n hi : num) : num_le n hi = true -> num_gt n hi = false.
Proof.
  intro H. apply num_le_ext in H.
  destruct (num_gt n hi) eqn:Hgt; [|reflexivity].
  apply num_gt_ext in Hgt.
  exfalso. apply (ext_lt_irrefl (num_ext hi)).
  now apply ext_lt_le_trans with (num_ext n).
Qed.

(** Below the lower bound of an interval is not above its upper bound. *)
Lemma num_lt_lo_not_gt_hi (n lo hi : num) :
  num_le lo hi = true -> num_lt n lo = true -> num_gt n hi = false.
Proof.
  intros Hle Hlt. apply num_le_ext in Hle. apply num_lt_ext in Hlt.
  destruct (num_gt n hi) eqn:Hgt; [|reflexivity].
  apply num_gt_ext in Hgt.
  exfalso. apply (ext_lt_irrefl (num_ext n)).
  apply ext_lt_le_trans with (num_ext lo); [assumption|].
  left. now apply ext_le_lt_trans with (num_ext hi).
Qed.

Lemma num_eq_le (a b : num) : num_eq a b = true -> num_le a b = true.
Proof.
  intro H. apply num_eq_ext in H. apply num_le_ext. now right.
Qed.

Lemma num_eq_ge (a b : num) : num_eq a b = true -> num_le b a = true.
Proof.
  intro H. apply num_eq_ext in H. apply num_le_ext. right.
  now apply ext_compare_Eq_sym.
Qed.

Lemma ext_le_trans (a b c : ext) : ext_le a b -> ext_le b c -> ext_le a c.
Proof.
  intros Hab Hbc. destruct Hab as [Hab|Hab].
  - left. now apply ext_lt_le_trans with b.
  - destruct Hbc as [Hbc|Hbc].
    + left. apply ext_le_lt_trans with b; [now right | assumption].
    + right. revert Hab Hbc.
      destruct a as [|s|p], b as [|t|q], c as [|u|w]; split_signs;
        try congruence.
      intros H H'. injection H as H; injection H' as H'. f_equal.
      rewrite <- Qeq_alt in *. now rewrite H.
Qed.

Lemma num_le_trans (a b c : num) :
  num_le a b = true -> num_le b c = true -> num_le a c = true.
Proof.
  rewrite !num_le_ext. apply ext_le_trans.
Qed.

(* ================================================================== *)
(** ** Strings and paths *)

Lemma append_inj_l (q a b : string) : q ++ a = q ++ b -> a = b.
Proof.
  induction q as [|ch q IH]; simpl; intro H; [assumption|].
  injection H as H. auto.
Qed.

Lemma append_assoc (a b c : string) : (a ++ b) ++ c = a ++ (b ++ c).
Proof.
  induction a as [|ch a IH]; simpl; [reflexivity|]. now rewrite IH.
Qed.

Lemma prefix_refl_append (a s : string) : String.prefix a (a ++ s) = true.
Proof.
  induction a as [|ch a IH]; simpl.
  - now destruct s.
  - destruct (ascii_dec ch ch) as [_|Hne]; [exact IH | now elim Hne].
Qed.

Lemma contains_append_r (needle a b : string) :
  contains needle b = true -> contains needle (a ++ b) = true.
Proof.
  intro H. induction a as [|ch a IH]; simpl; [assumption|].
  rewrite IH. apply orb_true_r.
Qed.

Lemma make_field_path_head (path_prefix name : string) :
  make_field_path path_prefix name = path_head path_prefix ++ name.
Proof.
  destruct path_prefix as [|ch rest]; [reflexivity|].
  unfold make_field_path, path_head. now rewrite append_assoc.
Qed.

Lemma make_field_path_inj (path_prefix a b : string) :
  make_field_path path_prefix a = make_field_path path_prefix b -> a = b.
Proof.
  rewrite !make_field_path_head. apply append_inj_l.
Qed.

(** A field path followed by an index is the path of the field only when
    the field's name itself contains the other name and a bracket. *)
Lemma indexed_path_prefix (path_prefix other name rest : string) :
  make_field_path path_prefix other ++ "[" ++ rest
  = make_field_path path_prefix name ->
  String.prefix (other ++ "[") name = true.
Proof.
  rewrite !make_field_path_head, append_assoc. intro H.
  apply append_inj_l in H. rewrite <- H.
  replace (other ++ "[" ++ rest) with ((other ++ "[") ++ rest)
    by apply append_assoc.
  apply prefix_refl_append.
Qed.

Lemma str_in_In (x : string) (xs : list string) :
  str_in x xs = true <-> In x xs.
Proof.
  unfold str_in. rewrite existsb_exists. split.
  - intros [y [Hy Heq]]. apply String.eqb_eq in Heq. now subst.
  - intro H. exists x. split; [assumption | apply String.eqb_refl].
Qed.

Lemma dict_get_In {A : Type} (k : string) (d : list (string * A)) (v : A) :
  dict_get k d = Some v -> In (k, v) d.
Proof.
  induction d as [|[k' v'] d IH]; simpl; [discriminate|].
  destruct (String.eqb k' k) eqn:Hk.
  - intro H; injection H as H. apply String.eqb_eq in Hk. subst. now left.
  - intro H. right. auto.
Qed.

(** [isinstance(v, (int, float))] holds exactly for the values that stand
    for a number. *)
Lemma as_num_numeric (v : value) :
  isinstance v numeric = true <-> exists n, as_num v = Some n.
Proof.
  destruct v; simpl; split; intro H; try discriminate; eauto;
    destruct H as [n H]; discriminate.
Qed.

Lemma as_num_not_numeric (v : value) :
  isinstance v numeric = false <-> as_num v = None.
Proof.
  destruct v; simpl; split; intro H; try discriminate; reflexivity.
Qed.

(* ================================================================== *)
(** ** Constraint checking *)

Lemma validate_constraints_not_numeric (w : value) (c : constraint)
      (p : string) (r : ValidationResult) :
  isinstance w numeric = false -> validate_constraints w c p r = r.
Proof.
  intro H. apply as_num_not_numeric in H.
  unfold validate_constraints. now rewrite H.
Qed.

Lemma validate_constraints_passes (v : value) (c : constraint)
      (p : string) (r : ValidationResult) :
  passes_constraints v c = true -> validate_constraints v c p r = r.
Proof.
  unfold passes_constraints, validate_constraints.
  destruct (as_num v) as [n|]; [|reflexivity].
  destruct (dict_get "min" c) as [lo|]; [destruct (num_lt n lo)|];
    (destruct (dict_get "max" c) as [hi|]; [destruct (num_gt n hi)|]);
    simpl; intro H; try discriminate; reflexivity.
Qed.

Lemma in_range_passes (v : value) (c : constraint) :
  in_range v c -> passes_constraints v c = true.
Proof.
  unfold in_range, passes_constraints. intro H.
  destruct (as_num v) as [n|]; [|reflexivity].
  destruct (H n eq_refl) as [Hlo Hhi].
  destruct (dict_get "min" c) as [lo|];
    [rewrite (num_le_not_lt lo n (Hlo lo eq_refl))|];
    (destruct (dict_get "max" c) as [hi|];
     [rewrite (num_le_not_gt n hi (Hhi hi eq_refl))|]); reflexivity.
Qed.

Lemma schemas_well_formed (ct : ConfigType) (schema : Schema) :
  schemas_get ct SCHEMAS = Some schema ->
  required_paths_separate schema = true
  /\ constraints_are_intervals schema = true.
Proof.
  destruct ct; simpl; intro H; injection H as <-; split; reflexivity.
Qed.

(** C4. For a numeric value and a constraint declaring the inclusive
    interval [lo, hi]: a value below [lo] adds exactly one error, the
    "below minimum" one; a value above [hi] adds exactly one error, the
    "exceeds maximum" one; a value equal to [lo] or to [hi] adds none. A
    value that is not numeric is never checked, whatever the constraint.
    Every constraint the registry declares is such an interval. *)
Theorem validate_constraints_inclusive_bounds :
  forall (c : constraint) (p : string) (r : ValidationResult),
    (forall w, isinstance w numeric = false -> validate_constraints w c p r = r)
    /\
    (forall (v : value) (n lo hi : num),
        isinstance v numeric = true -> as_num v = Some n ->
        dict_get "min" c = Some lo -> dict_get "max" c = Some hi ->
        num_le lo hi = true ->
        (num_lt n lo = true ->
         validate_constraints v c p r
         = emits [mkError p (below_minimum_message v lo) "error"] [] r
         /\ mentions "below minimum" (below_minimum_message v lo) = true)
        /\ (num_gt n hi = true ->
            validate_constraints v c p r
            = emits [mkError p (exceeds_maximum_message v hi) "error"] [] r
            /\ mentions "exceeds maximum" (exceeds_maximum_message v hi) = true)
        /\ (num_eq n lo = true \/ num_eq n hi = true ->
            validate_constraints v c p r = r))
    /\
    (forall ct schema table name declared,
        schemas_get ct SCHEMAS = Some schema ->
        constraints schema = Some table ->
        dict_get name table = Some declared ->
        exists lo hi, dict_get "min" declared = Some lo
                      /\ dict_get "max" declared = Some hi
                      /\ num_le lo hi = true).
Proof.
  intros c p r. split; [|split].
  - intro w. apply validate_constraints_not_numeric.
  - intros v n lo hi _ Hn Hmin Hmax Hle. repeat split.
    + unfold validate_constraints. rewrite Hn, Hmin, Hmax, H.
      rewrite (num_lt_lo_not_gt_hi n lo hi Hle H).
      apply add_error_emits.
    + unfold validate_constraints. rewrite Hn, Hmin, Hmax, H.
      assert (Hlt : num_lt n lo = false).
      { destruct (num_lt n lo) eqn:Hlt; [|reflexivity].
        now rewrite (num_lt_lo_not_gt_hi n lo hi Hle Hlt) in H. }
      rewrite Hlt. apply add_error_emits.
    + intro Heq. apply validate_constraints_passes.
      unfold passes_constraints. rewrite Hn, Hmin, Hmax.
      destruct Heq as [Heq|Heq].
      * rewrite (num_le_not_lt lo n (num_eq_ge n lo Heq)).
        rewrite (num_le_not_gt n hi
                   (num_le_trans n lo hi (num_eq_le n lo Heq) Hle)).
        reflexivity.
      * rewrite (num_le_not_gt n hi (num_eq_le n hi Heq)).
        rewrite (num_le_not_lt lo n
                   (num_le_trans lo hi n Hle (num_eq_ge n hi Heq))).
        reflexivity.
  - intros ct schema table name declared Hs Ht Hc.
    destruct (schemas_well_formed ct schema Hs) as [_ Hint].
    unfold constraints_are_intervals in Hint. rewrite Ht in Hint.
    rewrite forallb_forall in Hint.
    pose proof (Hint (name, declared) (dict_get_In name table declared Hc))
      as Hone.
    unfold constraint_is_interval in Hone. simpl in Hone.
    destruct (dict_get "min" declared) as [lo|]; [|discriminate].
    destruct (dict_get "max" declared) as [hi|]; [|discriminate].
    now exists lo, hi.
Qed.

(** The bounds of [base_health], checked at -10, 10001, 0 and 10000. *)
Lemma validate_constraints_inclusive_bounds_witness :
  let c := [("min", NInt 0); ("max", NInt 10000)] in
  validate_constraints (VInt (-10)) c "base_health" fresh
  = emits [mkError "base_health" (below_minimum_message (VInt (-10)) (NInt 0))
                   "error"] [] fresh
  /\ validate_constraints (VInt 10001) c "base_health" fresh
     = emits [mkError "base_health"
                      (exceeds_maximum_message (VInt 10001) (NInt 10000))
                      "error"] [] fresh
  /\ validate_constraints (VInt 0) c "base_health" fresh = fresh
  /\ validate_constraints (VInt 10000) c "base_health" fresh = fresh.
Proof.
  pose (c := [("min", NInt 0); ("max", NInt 10000)]).
  assert (H : forall z : Z,
             (num_lt (NInt z) (NInt 0) = true ->
              validate_constraints (VInt z) c "base_health" fresh
              = emits [mkError "base_health"
                               (below_minimum_message (VInt z) (NInt 0)) "error"]
                      [] fresh
              /\ mentions "below minimum"
                          (below_minimum_message (VInt z) (NInt 0)) = true)
             /\ (num_gt (NInt z) (NInt 10000) = true ->
                 validate_constraints (VInt z) c "base_health" fresh
                 = emits [mkError "base_health"
                                  (exceeds_maximum_message (VInt z) (NInt 10000))
                                  "error"] [] fresh
                 /\ mentions "exceeds maximum"
                             (exceeds_maximum_message (VInt z) (NInt 10000)) = true)
             /\ (num_eq (NInt z) (NInt 0) = true
                 \/ num_eq (NInt z) (NInt 10000) = true ->
                 validate_constraints (VInt z) c "base_health" fresh = fresh)).
  { intro z.
    apply (proj1 (proj2 (validate_constraints_inclusive_bounds
                           c "base_health" fresh))
                 (VInt z) (NInt z) (NInt 0) (NInt 10000));
      reflexivity. }
  cbv zeta. split; [|split; [|split]].
  - exact (proj1 (proj1 (H (-10)%Z) eq_refl)).
  - exact (proj1 (proj1 (proj2 (H 10001%Z)) eq_refl)).
  - exact (proj2 (proj2 (H 0%Z)) (or_introl eq_refl)).
  - exact (proj2 (proj2 (H 10000%Z)) (or_intror eq_refl)).
Defined.

(* ================================================================== *)
(** ** Booleans where a number is expected *)

(** C8. A boolean passes the type check of a field declared [int] and of a
    field declared [(int, float)] without an error, and is then checked
    against the declared constraints as the integer it stands for ([False] as
    0, [True] as 1): the constraint check reports at the same paths as for
    that integer. For instance [False] in [shots_per_burst] passes the type
    check and is reported as below the minimum 1. *)
Theorem bool_accepted_as_number :
  forall (b : bool) (p : string) (r : ValidationResult),
    validate_field_type (VBool b) (Single Tint) p r = (true, r)
    /\ validate_field_type (VBool b) int_or_float p r = (true, r)
    /\ as_num (VBool b) = Some (NInt (Z.b2z b))
    /\ (forall c : constraint,
           passes_constraints (VBool b) c = passes_constraints (VInt (Z.b2z b)) c
           /\ map path (errors (validate_constraints (VBool b) c p r))
              = map path (errors (validate_constraints (VInt (Z.b2z b)) c p r)))
    /\ errors (required_step weapon_stats_schema
                 [("shots_per_burst", VBool false)] "" r
                 ("shots_per_burst", Single Tint))
       = (errors r
          ++ [mkError "shots_per_burst"
                      (below_minimum_message (VBool false) (NInt 1)) "error"])%list.
Proof.
  intros b p r. split; [reflexivity|]. split; [reflexivity|].
  split; [reflexivity|]. split; [|reflexivity].
  intro c. split; [reflexivity|].
  unfold validate_constraints. simpl as_num. cbv beta iota.
  destruct (dict_get "min" c) as [lo|];
    [destruct (num_lt (NInt (Z.b2z b)) lo)|];
    (destruct (dict_get "max" c) as [hi|];
     [destruct (num_gt (NInt (Z.b2z b)) hi)|]);
    simpl; rewrite ?map_app; reflexivity.
Qed.

(* ================================================================== *)
(** ** Kind detection *)




Lemma match_type_name_str (members : list ConfigType) (s : string) :
  match_type_name members (VStr s)
  = Ok (find (fun k => String.eqb (lower (ConfigType_value k)) (lower s))
             members).
Proof.
  induction members as [|k members IH]; [reflexivity|].
  cbn [match_type_name py_lower find].
  destruct (String.eqb (lower (ConfigType_value k)) (lower s));
    [reflexivity | exact IH].
Qed.

Lemma match_type_name_found (s : string) (k : ConfigType) :
  lower s = lower (ConfigType_value k) ->
  match_type_name ConfigType_members (VStr s) = Ok (Some k).
Proof.
  intro H. rewrite match_type_name_str, H. now destruct k.
Qed.

Lemma match_type_name_none (s : string) :
  (forall k, lower s <> lower (ConfigType_value k)) ->
  match_type_name ConfigType_members (VStr s) = Ok None.
Proof.
  intro H. rewrite match_type_name_str. f_equal.
  destruct (find _ ConfigType_members) as [k|] eqn:Hfind; [|reflexivity].
  apply find_some in Hfind. destruct Hfind as [_ Heq].
  apply String.eqb_eq in Heq. now elim (H k).
Qed.

(** X1. The order of detection wherever it returns: a [type] string naming a
    kind (in any letter case) decides alone; with no [type] field, or a
    [type] string naming no kind, the field heuristics decide, in the order
    era, weapon, upgrade, archetype, and otherwise there is no kind, which
    [validate_file] reports as one error at the root. *)
Lemma detect_priority (data : document) :
  (forall s k,
      dict_get "type" data = Some (VStr s) ->
      lower s = lower (ConfigType_value k) ->
      detect_config_type data = Ok (Some k))
  /\ (dict_get "type" data = None
      \/ (exists s, dict_get "type" data = Some (VStr s)
                    /\ forall k, lower s <> lower (ConfigType_value k)) ->
      detect_config_type data = Ok (detect_by_fields data))
  /\ (dict_has "archetypes" data = true ->
      detect_by_fields data = Some ERA_CONFIG)
  /\ (dict_has "archetypes" data = false ->
      dict_has "shots_per_burst" data || dict_has "fire_rate" data = true ->
      detect_by_fields data = Some WEAPON_STATS)
  /\ (dict_has "archetypes" data = false ->
      dict_has "shots_per_burst" data || dict_has "fire_rate" data = false ->
      dict_has "hit_chance_multiplier" data || dict_has "damage_multiplier" data
      = true ->
      detect_by_fields data = Some UPGRADE_DEFINITION)
  /\ (dict_has "archetypes" data = false ->
      dict_has "shots_per_burst" data || dict_has "fire_rate" data = false ->
      dict_has "hit_chance_multiplier" data || dict_has "damage_multiplier" data
      = false ->
      dict_has "base_health" data || dict_has "base_move_speed" data = true ->
      detect_by_fields data = Some UNIT_ARCHETYPE)
  /\ (dict_has "archetypes" data = false ->
      dict_has "shots_per_burst" data || dict_has "fire_rate" data = false ->
      dict_has "hit_chance_multiplier" data || dict_has "damage_multiplier" data
      = false ->
      dict_has "base_health" data || dict_has "base_move_speed" data = false ->
      detect_by_fields data = None)
  /\ (detect_config_type data = Ok None ->
      forall file_name,
        validate_file file_name (VDict data, None)
        = Ok (emits [mkError "root"
                       [Lit "Unable to detect config type. Add 'type' field or use recognizable field names."]
                       "error"] [] (new_result file_name None))).
Proof.
  split; [|split]; [| |unfold detect_by_fields; repeat split].
  - intros s k Hget Hlow. unfold detect_config_type.
    now rewrite Hget, (match_type_name_found s k Hlow).
  - intros [Hnone | [s [Hget Hno]]]; unfold detect_config_type.
    + now rewrite Hnone.
    + now rewrite Hget, (match_type_name_none s Hno).
  - intro H. now rewrite H.
  - intros H1 H2. now rewrite H1, H2.
  - intros H1 H2 H3. now rewrite H1, H2, H3.
  - intros H1 H2 H3 H4. now rewrite H1, H2, H3, H4.
  - intros H1 H2 H3 H4. now rewrite H1, H2, H3, H4.
  - intros Hd file_name. unfold validate_file. simpl. now rewrite Hd.
Qed.

(** The documents the specification names: an [archetypes] list alone is an
    era, [shots_per_burst] alone a weapon, and a document of unknown fields
    has no kind and gets the single root-level error. *)
Lemma detect_examples :
  detect_config_type [("archetypes", VList [])] = Ok (Some ERA_CONFIG)
  /\ detect_config_type [("shots_per_burst", VInt 1)] = Ok (Some WEAPON_STATS)
  /\ detect_config_type [("unknown_field", VStr "x")] = Ok None
  /\ detect_config_type [("type", VStr "weaponSTATS"); ("archetypes", VList [])]
     = Ok (Some WEAPON_STATS)
  /\ validate_file "u.json" (VDict [("unknown_field", VStr "x")], None)
     = Ok (mkResult "u.json" None
             [mkError "root"
                [Lit "Unable to detect config type. Add 'type' field or use recognizable field names."]
                "error"] []).
Proof.
  repeat split.
Qed.

(** Wherever the discriminator is absent or a string, [detect_config_type]
    returns what the specification's policy says. *)
Lemma detect_config_type_refines_spec (data : document) :
  dict_get "type" data = None
  \/ (exists s, dict_get "type" data = Some (VStr s)) ->
  detect_config_type data = Ok (detect_kind_spec data).
Proof.
  unfold detect_config_type, detect_kind_spec.
  intros [Hnone | [s Hget]].
  - now rewrite Hnone.
  - rewrite Hget, match_type_name_str. simpl names_kind.
    now destruct (find _ ConfigType_members).
Qed.

(** C6. The stated priority fails on a document whose [type] field is not
    a string. For [{"type": 5, "archetypes": []}] the discriminator names no
    kind and the heuristics make it an era, which is what the specification's
    policy gives; [detect_config_type] consults no heuristic and raises, and
    [validate_file] with it. *)
Theorem detect_numeric_type_skips_heuristics :
  dict_get "type" document_with_numeric_type = Some (VInt 5)
  /\ detect_by_fields document_with_numeric_type = Some ERA_CONFIG
  /\ detect_kind_spec document_with_numeric_type = Some ERA_CONFIG
  /\ detect_config_type document_with_numeric_type
     = Raise (AttributeError "int" "lower")
  /\ validate_file "era.yaml" (VDict document_with_numeric_type, None)
     = Raise (AttributeError "int" "lower").
Proof.
  repeat split.
Qed.

(* ================================================================== *)
(** ** Nested entries *)

(** C1. The entries of an era's [archetypes] and [upgrades] lists are never
    looked at: whatever the two lists hold, the era document validates with
    no error and no warning, although the registry declares their kinds
    ([nested_schemas]). In particular the era whose only archetype is
    [{"base_health": -5}] is valid, while that entry, validated as a
    [UnitArchetype] under the prefix [archetypes[0]], has three errors. *)
Theorem era_entries_not_validated :
  forall (era_name : string) (archetypes upgrades : list value) (file_name : string),
    validate_file file_name
      (VDict [("type", VStr "EraConfig");
              ("name", VStr era_name);
              ("archetypes", VList archetypes);
              ("upgrades", VList upgrades)], None)
    = Ok (new_result file_name (Some ERA_CONFIG))
    /\ validate_file file_name (VDict era_with_bad_archetype, None)
       = Ok (new_result file_name (Some ERA_CONFIG))
    /\ nested_schemas era_schema
       = Some [("archetypes", "UnitArchetype"); ("upgrades", "UpgradeDefinition")]
    /\ errors (validate_config [("base_health", VInt (-5))] UNIT_ARCHETYPE
                 fresh "archetypes[0]")
       = [mkError "archetypes[0].id"
            [Lit "Required field 'id' is missing"] "error";
          mkError "archetypes[0].base_health"
            (below_minimum_message (VInt (-5)) (NInt 0)) "error";
          mkError "archetypes[0].base_move_speed"
            [Lit "Required field 'base_move_speed' is missing"] "error"].
Proof.
  intros era_name archetypes upgrades file_name. repeat split.
Qed.

(* ================================================================== *)
(** ** Validation is a function of the document and the kind *)


(* ================================================================== *)
(** ** Curves *)

Lemma validate_curve_point_good (p : string) (index : nat) (point : value)
      (r : ValidationResult) :
  good_point point -> validate_curve_point p index point r = r.
Proof.
  intros [x [y [Hitems [Hx Hy]]]].
  unfold validate_curve_point. now rewrite Hitems, Hx, Hy.
Qed.

Lemma validate_curve_point_silent (p : string) (index : nat) (point : value) :
  errors (validate_curve_point p index point fresh) = [] -> good_point point.
Proof.
  unfold validate_curve_point, good_point.
  destruct (sequence_items point) as [[|x [|y [|z items]]]|];
    try (simpl; discriminate).
  destruct (isinstance x numeric) eqn:Hx, (isinstance y numeric) eqn:Hy;
    simpl; try discriminate.
  intros _. now exists x, y.
Qed.

Lemma validate_curve_points_cons (p : string) (point : value)
      (rest : list value) (index : nat) (r : ValidationResult) :
  errors (validate_curve_points p index (point :: rest) r)
  = (errors r
     ++ errors (validate_curve_point p index point fresh)
     ++ errors (validate_curve_points p (S index) rest fresh))%list.
Proof.
  simpl.
  rewrite (appender_errors _ (error_appender_appender _
             (validate_curve_points_appends p rest (S index)))).
  rewrite (appender_errors _ (error_appender_appender _
             (validate_curve_point_appends p index point)) r).
  now rewrite app_assoc.
Qed.

Lemma validate_curve_points_good (p : string) (points : list value) :
  forall index r,
    Forall good_point points -> validate_curve_points p index points r = r.
Proof.
  induction points as [|point rest IH]; intros index r H; [reflexivity|].
  inversion H as [|? ? Hpoint Hrest]; subst. simpl.
  rewrite (validate_curve_point_good p index point r Hpoint). now apply IH.
Qed.

Lemma validate_curve_points_silent (p : string) (points : list value) :
  forall index r,
    errors (validate_curve_points p index points r) = errors r ->
    Forall good_point points.
Proof.
  induction points as [|point rest IH]; intros index r H; [constructor|].
  rewrite validate_curve_points_cons in H.
  rewrite <- (app_nil_r (errors r)) in H at 2.
  apply app_inv_head in H. apply app_eq_nil in H. destruct H as [Hpoint Hrest].
  constructor.
  - now apply (validate_curve_point_silent p index).
  - apply (IH (S index) fresh). exact Hrest.
Qed.

(** An error of the point at position [i] is an error of the whole curve. *)
Lemma validate_curve_points_In (p : string) (points : list value) :
  forall index r i point e,
    nth_error points i = Some point ->
    In e (errors (validate_curve_point p (index + i) point fresh)) ->
    In e (errors (validate_curve_points p index points r)).
Proof.
  induction points as [|first rest IH]; intros index r i point e Hnth He.
  - destruct i; discriminate.
  - rewrite validate_curve_points_cons.
    apply in_or_app. right. apply in_or_app.
    destruct i as [|i]; simpl in Hnth.
    + injection Hnth as Hnth. subst. rewrite Nat.add_0_r in He. now left.
    + right. apply (IH (S index) fresh i point e Hnth).
      now rewrite Nat.add_succ_comm.
Qed.

(** The curve check of an optional curve field is part of the validation
    of the document. *)
Lemma validate_config_runs_curve (data : document) (ct : ConfigType)
      (schema : Schema) (prefix name : string) (ty : expected_type)
      (points : list value) (r : ValidationResult) (e : ValidationError) :
  schemas_get ct SCHEMAS = Some schema ->
  In (name, ty) (optional_fields_of schema) ->
  endswith name "_curve" = true ->
  dict_get name data = Some (VList points) ->
  In e (errors (validate_curve (VList points) (make_field_path prefix name) fresh)) ->
  In e (errors (validate_config data ct r prefix)).
Proof.
  intros Hs Hin Hsuffix Hget He.
  rewrite (validate_config_errors data ct schema prefix r Hs).
  apply in_or_app. right. apply in_or_app. right.
  apply in_flat_map. exists (name, ty). split; [assumption|].
  unfold optional_step. simpl fst. simpl snd. rewrite Hget, Hsuffix.
  change (isinstance (VList points) (Single Tlist)) with true.
  simpl andb. cbv iota.
  rewrite (appender_errors _ (error_appender_appender _
             (validate_curve_appends (VList points)
                (make_field_path prefix name)))).
  apply in_or_app. now right.
Qed.

(** C7. A curve, the list held by an optional field whose name ends in
    [_curve], is free of errors exactly when each of its elements is a
    two-element sequence of numbers. An element that is not a two-element
    sequence is reported at [field[i]], a first component that is not a
    number at [field[i][0]], a second at [field[i][1]], and these reports are
    part of the document's validation. The curve [[0,1.0],[2,1.0],[3,0.5]]
    has no error; the weapon document with the curve [[0,1.0],[1,"bad"]] is
    invalid with exactly one error, at [range_curve[1][1]], saying the value
    must be numeric. *)
Theorem curve_points_checked :
  forall (points : list value) (p : string) (r : ValidationResult),
    (errors (validate_curve (VList points) p r) = errors r
     <-> Forall good_point points)
    /\ (forall i point,
           nth_error points i = Some point ->
           let point_path := p ++ "[" ++ nat_to_string i ++ "]" in
           ((forall x y, sequence_items point <> Some [x; y]) ->
            In (mkError point_path [Lit "Each curve point must be [x, y]"] "error")
               (errors (validate_curve (VList points) p r)))
           /\ (forall x y,
                  sequence_items point = Some [x; y] ->
                  (isinstance x numeric = false ->
                   In (mkError (point_path ++ "[0]")
                         [Lit ("X value must be numeric, got "
                               ++ type_name (type_of x))] "error")
                      (errors (validate_curve (VList points) p r)))
                  /\ (isinstance y numeric = false ->
                      In (mkError (point_path ++ "[1]")
                            [Lit ("Y value must be numeric, got "
                                  ++ type_name (type_of y))] "error")
                         (errors (validate_curve (VList points) p r)))))
    /\ (forall data ct schema prefix name ty e,
           schemas_get ct SCHEMAS = Some schema ->
           In (name, ty) (optional_fields_of schema) ->
           endswith name "_curve" = true ->
           dict_get name data = Some (VList points) ->
           In e (errors (validate_curve (VList points)
                           (make_field_path prefix name) fresh)) ->
           In e (errors (validate_config data ct r prefix)))
    /\ validate_curve sample_curve "range_curve" fresh = fresh
    /\ validate_file "weapon.json" (VDict weapon_with_bad_curve, None)
       = Ok (mkResult "weapon.json" (Some WEAPON_STATS)
               [mkError "range_curve[1][1]"
                  [Lit "Y value must be numeric, got str"] "error"] [])
    /\ mentions "must be numeric" [Lit "Y value must be numeric, got str"] = true.
Proof.
  intros points p r. split; [|split; [|split; [|repeat split]]].
  - simpl. split.
    + apply validate_curve_points_silent.
    + intro H. now rewrite validate_curve_points_good.
  - intros i point Hnth point_path. split.
    + intro Hshape. simpl.
      apply (validate_curve_points_In p points 0 r i point _ Hnth).
      unfold validate_curve_point. simpl Nat.add.
      destruct (sequence_items point) as [[|x [|y [|z items]]]|];
        try (now left).
      now elim (Hshape x y).
    + intros x y Hitems. split; intro Hbad; simpl;
        apply (validate_curve_points_In p points 0 r i point _ Hnth);
        unfold validate_curve_point; simpl Nat.add; rewrite Hitems, Hbad.
      * destruct (negb (isinstance y numeric)); now left.
      * destruct (negb (isinstance x numeric)); simpl.
        -- now (right; left).
        -- destruct (negb false); now left.
  - intros data ct schema prefix name ty e.
    apply validate_config_runs_curve.
Qed.

(* ================================================================== *)
(** ** Documents that pass *)

Lemma validate_field_type_ok (v : value) (ty : expected_type) (p : string)
      (r : ValidationResult) :
  isinstance v ty = true -> validate_field_type v ty p r = (true, r).
Proof.
  intro H. unfold validate_field_type. rewrite H. now destruct ty.
Qed.

Lemma check_declared_constraints_passes (schema : Schema) (name : string)
      (v : value) (p : string) (r : ValidationResult) :
  passes_declared_constraints schema name v = true ->
  check_declared_constraints schema name v p r = r.
Proof.
  unfold passes_declared_constraints, check_declared_constraints.
  destruct (constraints schema) as [table|]; [|reflexivity].
  destruct (dict_get name table) as [c|]; [|reflexivity].
  apply validate_constraints_passes.
Qed.

Lemma in_declared_range_passes (schema : Schema) (name : string) (v : value) :
  in_declared_range schema name v ->
  passes_declared_constraints schema name v = true.
Proof.
  unfold in_declared_range, passes_declared_constraints. intro H.
  destruct (constraints schema) as [table|]; [|reflexivity].
  destruct (dict_get name table) as [c|] eqn:Hc; [|reflexivity].
  apply in_range_passes. exact (H table c eq_refl Hc).
Qed.

Lemma required_step_ok (schema : Schema) (data : document) (prefix : string)
      (r : ValidationResult) (entry : string * expected_type) :
  required_ok schema data entry ->
  required_step schema data prefix r entry = r.
Proof.
  intros [v [Hget [Hty Hrange]]]. unfold required_step.
  rewrite Hget, (validate_field_type_ok v (snd entry) _ r Hty). simpl.
  apply check_declared_constraints_passes.
  now apply in_declared_range_passes.
Qed.

Lemma isinstance_list (v : value) :
  isinstance v (Single Tlist) = true -> exists points, v = VList points.
Proof.
  destruct v; simpl; try discriminate. intros _. now exists items.
Qed.

Lemma optional_step_ok (schema : Schema) (data : document) (prefix : string)
      (r : ValidationResult) (entry : string * expected_type) :
  optional_ok schema data entry ->
  optional_step schema data prefix r entry = r.
Proof.
  unfold optional_ok, optional_step.
  destruct (dict_get (fst entry) data) as [v|]; [|reflexivity].
  set (p := make_field_path prefix (fst entry)).
  assert (Hgen : isinstance v (snd entry) = true
                 /\ in_declared_range schema (fst entry) v
                 /\ (endswith (fst entry) "_curve" = true ->
                     forall points, v = VList points -> Forall good_point points) ->
                 (if endswith (fst entry) "_curve" && isinstance v (Single Tlist)
                  then validate_curve v p
                         (check_declared_constraints schema (fst entry) v p
                            (snd (validate_field_type v (snd entry) p r)))
                  else check_declared_constraints schema (fst entry) v p
                         (snd (validate_field_type v (snd entry) p r))) = r).
  { intros [Hty [Hrange Hcurve]].
    rewrite (validate_field_type_ok v (snd entry) p r Hty). simpl snd.
    rewrite (check_declared_constraints_passes schema (fst entry) v p r
               (in_declared_range_passes schema (fst entry) v Hrange)).
    destruct (endswith (fst entry) "_curve") eqn:Hsuffix; [|reflexivity].
    destruct (isinstance v (Single Tlist)) eqn:Hlist; [|reflexivity].
    destruct (isinstance_list v Hlist) as [points ->]. simpl.
    apply validate_curve_points_good. now apply Hcurve. }
  destruct v; try exact Hgen. reflexivity.
Qed.

Lemma fold_left_fixed {A : Type} (step : ValidationResult -> A -> ValidationResult)
      (xs : list A) (r : ValidationResult) :
  (forall x, In x xs -> step r x = r) -> fold_left step xs r = r.
Proof.
  induction xs as [|x xs IH]; intro H; simpl; [reflexivity|].
  rewrite (H x (or_introl eq_refl)). apply IH.
  intros y Hy. apply H. now right.
Qed.

Lemma unknown_step_known (schema : Schema) (prefix name : string)
      (r : ValidationResult) :
  str_in name (known_fields schema) = true ->
  unknown_step schema prefix r name = r.
Proof.
  intro H. unfold unknown_step. now rewrite H.
Qed.

(** C3, as amended. A document in which every required field is present
    with the expected type and a value in range, every optional field is
    absent, null, or of the expected type, in range and (a curve) made of
    two-number points, and no field is unknown, validates to a result that is
    valid, with no error and no warning. *)
Theorem well_formed_document_valid :
  forall (ct : ConfigType) (schema : Schema) (data : document)
         (prefix file_name : string),
    schemas_get ct SCHEMAS = Some schema ->
    (forall entry, In entry (required_fields schema) ->
                   required_ok schema data entry) ->
    (forall entry, In entry (optional_fields_of schema) ->
                   optional_ok schema data entry) ->
    no_unknown_fields schema data ->
    let result :=
      validate_config data ct (new_result file_name (Some ct)) prefix in
    is_valid result = true /\ errors result = [] /\ warnings result = [].
Proof.
  intros ct schema data prefix file_name Hs Hreq Hopt Hknown result.
  assert (Hres : result = new_result file_name (Some ct)).
  { unfold result.
    rewrite (validate_config_unfold data ct schema prefix _ Hs).
    unfold schema_loops.
    rewrite (fold_left_fixed (required_step schema data prefix));
      [|intros e He; apply required_step_ok; auto].
    rewrite (fold_left_fixed (optional_step schema data prefix));
      [|intros e He; apply optional_step_ok; auto].
    apply fold_left_fixed. intros k Hk. apply unknown_step_known. auto. }
  rewrite Hres. repeat split.
Qed.

(** Decides [in_declared_range] for a concrete schema, field and value. *)
Ltac check_declared_range :=
  let table := fresh "table" in
  let c := fresh "c" in
  let Ht := fresh "Ht" in
  let Hc := fresh "Hc" in
  let n := fresh "n" in
  let Hn := fresh "Hn" in
  intros table c Ht Hc; vm_compute in Ht;
  first [ discriminate Ht
        | injection Ht as <-; vm_compute in Hc;
          first [ discriminate Hc
                | injection Hc as <-; intros n Hn; vm_compute in Hn;
                  first [ discriminate Hn
                        | injection Hn as <-;
                          split; intros ? Hb; vm_compute in Hb;
                          injection Hb as <-; reflexivity ] ] ].

(** C3, as stated, fails: the upgrade document
    [{"type": "UpgradeDefinition", "name": "Veterans", "cost": "expensive"}]
    has its one required field present and well typed and has no unknown
    field, yet the optional [cost] makes it invalid. *)
Lemma valid_required_fields_not_enough :
  detect_config_type upgrade_with_text_cost = Ok (Some UPGRADE_DEFINITION)
  /\ (forall entry, In entry (required_fields upgrade_definition_schema) ->
                    required_ok upgrade_definition_schema
                                upgrade_with_text_cost entry)
  /\ no_unknown_fields upgrade_definition_schema upgrade_with_text_cost
  /\ is_valid (validate_config upgrade_with_text_cost UPGRADE_DEFINITION
                 (new_result "upgrade.json" (Some UPGRADE_DEFINITION)) "")
     = false
  /\ errors (validate_config upgrade_with_text_cost UPGRADE_DEFINITION
               (new_result "upgrade.json" (Some UPGRADE_DEFINITION)) "")
     = [mkError "cost" [Lit "Expected int, got str"] "error"].
Proof.
  split; [reflexivity|]. split; [|split; [|split; reflexivity]].
  - intros entry [<-|[]]. exists (VStr "Veterans").
    split; [reflexivity|]. split; [reflexivity|]. check_declared_range.
  - intros k [<-|[<-|[<-|[]]]]; reflexivity.
Qed.

(** The valid upgrade [{"type": "UpgradeDefinition", "name": "Veterans",
    "cost": 100}]. *)
Lemma well_formed_document_valid_witness :
  let data := [("type", VStr "UpgradeDefinition");
               ("name", VStr "Veterans");
               ("cost", VInt 100)] in
  let result :=
    validate_config data UPGRADE_DEFINITION
      (new_result "upgrade.json" (Some UPGRADE_DEFINITION)) "" in
  is_valid result = true /\ errors result = [] /\ warnings result = [].
Proof.
  apply (well_formed_document_valid UPGRADE_DEFINITION upgrade_definition_schema).
  - reflexivity.
  - intros entry [<-|[]]. exists (VStr "Veterans").
    split; [reflexivity|]. split; [reflexivity|]. check_declared_range.
  - intros entry [<-|[<-|[<-|[<-|[<-|[]]]]]]; try exact I.
    split; [reflexivity|]. split; [check_declared_range|].
    intro H; discriminate H.
  - intros k [<-|[<-|[<-|[]]]]; reflexivity.
Defined.

(* ================================================================== *)
(** ** Unknown fields *)

Lemma is_valid_errors (r : ValidationResult) :
  is_valid r = true <-> errors r = [].
Proof.
  unfold is_valid. destruct (errors r); simpl; split; intro H;
    try reflexivity; discriminate.
Qed.

Lemma dict_get_without_field (k name : string) (data : document) :
  k <> name -> dict_get k (without_field name data) = dict_get k data.
Proof.
  intro Hne. induction data as [|[k' v'] data IH]; simpl; [reflexivity|].
  destruct (String.eqb k' name) eqn:Hname; simpl.
  - apply String.eqb_eq in Hname. subst k'.
    destruct (String.eqb name k) eqn:Hk; [|exact IH].
    apply String.eqb_eq in Hk. now elim Hne.
  - now rewrite IH.
Qed.

Lemma required_step_same_field (schema : Schema) (data data' : document)
      (prefix : string) (r : ValidationResult) (entry : string * expected_type) :
  dict_get (fst entry) data' = dict_get (fst entry) data ->
  required_step schema data' prefix r entry
  = required_step schema data prefix r entry.
Proof.
  intro H. unfold required_step. now rewrite H.
Qed.

Lemma optional_step_same_field (schema : Schema) (data data' : document)
      (prefix : string) (r : ValidationResult) (entry : string * expected_type) :
  dict_get (fst entry) data' = dict_get (fst entry) data ->
  optional_step schema data' prefix r entry
  = optional_step schema data prefix r entry.
Proof.
  intro H. unfold optional_step. now rewrite H.
Qed.

Lemma flat_map_same {A B : Type} (f g : A -> list B) (xs : list A) :
  (forall x, In x xs -> f x = g x) -> flat_map f xs = flat_map g xs.
Proof.
  induction xs as [|x xs IH]; intro H; simpl; [reflexivity|].
  rewrite (H x (or_introl eq_refl)), IH; [reflexivity|].
  intros y Hy. apply H. now right.
Qed.

(** The errors of a validation do not depend on a field the schema does
    not declare. *)
Lemma errors_without_undeclared_field (data : document) (ct : ConfigType)
      (schema : Schema) (prefix name : string) (r : ValidationResult) :
  schemas_get ct SCHEMAS = Some schema ->
  ~ In name (dict_keys (required_fields schema)) ->
  ~ In name (dict_keys (optional_fields_of schema)) ->
  errors (validate_config (without_field name data) ct r prefix)
  = errors (validate_config data ct r prefix).
Proof.
  intros Hs Hreq Hopt.
  rewrite !(validate_config_errors _ ct schema prefix r Hs).
  f_equal. f_equal.
  - apply flat_map_same. intros entry Hin.
    f_equal. apply required_step_same_field, dict_get_without_field.
    intro Heq. apply Hreq. rewrite <- Heq. now apply in_map.
  - apply flat_map_same. intros entry Hin.
    f_equal. apply optional_step_same_field, dict_get_without_field.
    intro Heq. apply Hopt. rewrite <- Heq. now apply in_map.
Qed.

Lemma unknown_step_warnings (schema : Schema) (prefix name : string) :
  warnings (unknown_step schema prefix fresh name)
  = if str_in name (known_fields schema) then []
    else [mkError (make_field_path prefix name)
            [Lit ("Unknown field '" ++ name ++ "'")] "warning"].
Proof.
  unfold unknown_step. now destruct (str_in name (known_fields schema)).
Qed.

Lemma path_is_field (prefix name other : string) (msg : fstring) (sev : string) :
  path_is (make_field_path prefix name)
          (mkError (make_field_path prefix other) msg sev)
  = String.eqb other name.
Proof.
  unfold path_is. simpl.
  destruct (String.eqb other name) eqn:H.
  - apply String.eqb_eq in H. subst. apply String.eqb_refl.
  - apply String.eqb_neq. intro Heq. apply make_field_path_inj in Heq.
    apply String.eqb_neq in H. now elim H.
Qed.

Lemma unknown_warnings_of_other_fields (schema : Schema) (prefix name : string)
      (names : list string) :
  ~ In name names ->
  filter (path_is (make_field_path prefix name))
         (flat_map (fun k => warnings (unknown_step schema prefix fresh k)) names)
  = [].
Proof.
  induction names as [|k names IH]; intro Hnot; simpl; [reflexivity|].
  rewrite filter_app, IH by (intro H; apply Hnot; now right).
  rewrite unknown_step_warnings, app_nil_r.
  destruct (str_in k (known_fields schema)); [reflexivity|].
  simpl. rewrite path_is_field.
  destruct (String.eqb k name) eqn:Hk; [|reflexivity].
  apply String.eqb_eq in Hk. elim Hnot. now left.
Qed.

Lemma unknown_warnings_of_field (schema : Schema) (prefix name : string)
      (names : list string) :
  NoDup names -> In name names ->
  str_in name (known_fields schema) = false ->
  filter (path_is (make_field_path prefix name))
         (flat_map (fun k => warnings (unknown_step schema prefix fresh k)) names)
  = [mkError (make_field_path prefix name)
       [Lit ("Unknown field '" ++ name ++ "'")] "warning"].
Proof.
  intros Hnodup Hin Hunknown.
  induction names as [|k names IH]; [contradiction|].
  inversion Hnodup as [|? ? Hfirst Hrest]; subst.
  simpl. rewrite filter_app, unknown_step_warnings.
  destruct (String.eqb k name) eqn:Hk.
  - apply String.eqb_eq in Hk. subst k.
    rewrite Hunknown, (unknown_warnings_of_other_fields _ _ _ _ Hfirst).
    simpl. now rewrite path_is_field, String.eqb_refl.
  - assert (Hin' : In name names).
    { destruct Hin as [Heq|Hin']; [|assumption].
      subst. now rewrite String.eqb_refl in Hk. }
    rewrite (IH Hrest Hin').
    destruct (str_in k (known_fields schema)); [reflexivity|].
    simpl. now rewrite path_is_field, Hk.
Qed.

Lemma not_known_field (schema : Schema) (name : string) :
  ~ In name (dict_keys (required_fields schema)) ->
  ~ In name (dict_keys (optional_fields_of schema)) ->
  name <> "type" ->
  str_in name (known_fields schema) = false.
Proof.
  intros Hreq Hopt Htype.
  destruct (str_in name (known_fields schema)) eqn:H; [|reflexivity].
  apply str_in_In in H. unfold known_fields in H.
  apply in_app_or in H. destruct H as [H|H]; [now elim Hreq|].
  apply in_app_or in H. destruct H as [H|H]; [now elim Hopt|].
  destruct H as [H|[]]. now elim Htype.
Qed.

(** C5. A field of the document (a dict: its keys are distinct) that is
    neither a required field, nor an optional field, nor [type], gets
    exactly one warning, at its own path and naming it, and no error: the
    errors of the validation are those of the document without the field.
    If that document is valid, so is the one with the field; a result is
    valid exactly when its error list is empty. *)
Theorem unknown_field_warned :
  forall (ct : ConfigType) (schema : Schema) (data : document)
         (prefix file_name name : string),
    schemas_get ct SCHEMAS = Some schema ->
    NoDup (dict_keys data) ->
    In name (dict_keys data) ->
    ~ In name (dict_keys (required_fields schema)) ->
    ~ In name (dict_keys (optional_fields_of schema)) ->
    name <> "type" ->
    let start := new_result file_name (Some ct) in
    let result := validate_config data ct start prefix in
    let field_path := make_field_path prefix name in
    warnings_at field_path result
    = [mkError field_path [Lit ("Unknown field '" ++ name ++ "'")] "warning"]
    /\ errors result
       = errors (validate_config (without_field name data) ct start prefix)
    /\ (is_valid (validate_config (without_field name data) ct start prefix)
        = true -> is_valid result = true)
    /\ (is_valid result = true <-> errors result = []).
Proof.
  intros ct schema data prefix file_name name Hs Hnodup Hin Hreq Hopt Htype
         start result field_path.
  assert (Herr : errors result
                 = errors (validate_config (without_field name data)
                             ct start prefix)).
  { symmetry. now apply (errors_without_undeclared_field data ct schema). }
  split; [|split; [exact Herr|split]].
  - unfold warnings_at, result.
    rewrite (validate_config_warnings data ct schema prefix start Hs).
    simpl. apply unknown_warnings_of_field; auto.
    now apply not_known_field.
  - rewrite !is_valid_errors, Herr. auto.
  - apply is_valid_errors.
Qed.

(** The archetype of the test suite with one extra field. *)
Lemma unknown_field_warned_witness :
  let start := new_result "unit.yaml" (Some UNIT_ARCHETYPE) in
  let result :=
    validate_config archetype_with_extra_field UNIT_ARCHETYPE start "" in
  warnings_at "unknown_field" result
  = [mkError "unknown_field" [Lit "Unknown field 'unknown_field'"] "warning"]
  /\ errors result
     = errors (validate_config
                 (without_field "unknown_field" archetype_with_extra_field)
                 UNIT_ARCHETYPE start "")
  /\ (is_valid (validate_config
                  (without_field "unknown_field" archetype_with_extra_field)
                  UNIT_ARCHETYPE start "") = true -> is_valid result = true)
  /\ (is_valid result = true <-> errors result = []).
Proof.
  apply (unknown_field_warned UNIT_ARCHETYPE unit_archetype_schema
           archetype_with_extra_field "" "unit.yaml" "unknown_field").
  - reflexivity.
  - repeat constructor; simpl; intuition discriminate.
  - simpl. intuition.
  - simpl. intuition discriminate.
  - simpl. intuition discriminate.
  - discriminate.
Defined.

(* ================================================================== *)
(** ** Required fields *)

Lemma filter_all_at (p : string) (es : list ValidationError) :
  Forall (fun e => path e = p) es -> filter (path_is p) es = es.
Proof.
  induction 1 as [|e es He _ IH]; simpl; [reflexivity|].
  unfold path_is at 1. rewrite He, String.eqb_refl. now rewrite IH.
Qed.

Lemma filter_none_at (p : string) (es : list ValidationError) :
  Forall (fun e => path e <> p) es -> filter (path_is p) es = [].
Proof.
  induction 1 as [|e es He _ IH]; simpl; [reflexivity|].
  unfold path_is at 1. apply String.eqb_neq in He. now rewrite He.
Qed.

Lemma validate_field_type_errors (v : value) (ty : expected_type) (p : string) :
  Forall (fun e => path e = p) (errors (snd (validate_field_type v ty p fresh)))
  /\ List.length (errors (snd (validate_field_type v ty p fresh)))
     = if isinstance v ty then 0 else 1.
Proof.
  unfold validate_field_type.
  destruct ty; destruct (isinstance v _); simpl; split;
    repeat constructor.
Qed.

Lemma validate_constraints_paths (v : value) (c : constraint) (p : string) :
  Forall (fun e => path e = p) (errors (validate_constraints v c p fresh)).
Proof.
  unfold validate_constraints.
  destruct (as_num v) as [n|]; [|constructor].
  destruct (dict_get "min" c) as [lo|]; [destruct (num_lt n lo)|];
    (destruct (dict_get "max" c) as [hi|]; [destruct (num_gt n hi)|]);
    simpl; repeat constructor.
Qed.

Lemma validate_constraints_count (v : value) (c : constraint) (p : string) :
  constraint_is_interval c = true ->
  List.length (errors (validate_constraints v c p fresh))
  = if passes_constraints v c then 0 else 1.
Proof.
  unfold constraint_is_interval, validate_constraints, passes_constraints.
  destruct (as_num v) as [n|]; [|reflexivity].
  destruct (dict_get "min" c) as [lo|]; [|discriminate].
  destruct (dict_get "max" c) as [hi|]; [|discriminate].
  intro Hle.
  destruct (num_lt n lo) eqn:Hlt.
  - now rewrite (num_lt_lo_not_gt_hi n lo hi Hle Hlt).
  - now destruct (num_gt n hi).
Qed.

Lemma check_declared_constraints_paths (schema : Schema) (name : string)
      (v : value) (p : string) :
  Forall (fun e => path e = p)
         (errors (check_declared_constraints schema name v p fresh)).
Proof.
  unfold check_declared_constraints.
  destruct (constraints schema) as [table|]; [|constructor].
  destruct (dict_get name table) as [c|]; [|constructor].
  apply validate_constraints_paths.
Qed.

Lemma check_declared_constraints_count (schema : Schema) (name : string)
      (v : value) (p : string) :
  constraints_are_intervals schema = true ->
  List.length (errors (check_declared_constraints schema name v p fresh))
  = if passes_declared_constraints schema name v then 0 else 1.
Proof.
  unfold constraints_are_intervals, check_declared_constraints,
    passes_declared_constraints.
  destruct (constraints schema) as [table|]; [|reflexivity].
  intro Hall.
  destruct (dict_get name table) as [c|] eqn:Hc; [|reflexivity].
  apply validate_constraints_count.
  rewrite forallb_forall in Hall.
  exact (Hall (name, c) (dict_get_In name table c Hc)).
Qed.

(** The errors of the two checks of a present field. *)
Lemma field_checks_errors (schema : Schema) (name : string) (v : value)
      (ty : expected_type) (p : string) :
  errors (check_declared_constraints schema name v p
            (snd (validate_field_type v ty p fresh)))
  = (errors (snd (validate_field_type v ty p fresh))
     ++ errors (check_declared_constraints schema name v p fresh))%list.
Proof.
  apply (appender_errors _ (error_appender_appender _
           (check_declared_constraints_appends schema name v p))).
Qed.

Lemma field_checks_paths (schema : Schema) (name : string) (v : value)
      (ty : expected_type) (p : string) :
  Forall (fun e => path e = p)
         (errors (check_declared_constraints schema name v p
                    (snd (validate_field_type v ty p fresh)))).
Proof.
  rewrite field_checks_errors. apply Forall_app. split.
  - apply validate_field_type_errors.
  - apply check_declared_constraints_paths.
Qed.

Lemma required_step_paths (schema : Schema) (data : document) (prefix : string)
      (entry : string * expected_type) :
  Forall (fun e => path e = make_field_path prefix (fst entry))
         (errors (required_step schema data prefix fresh entry)).
Proof.
  unfold required_step.
  destruct (dict_get (fst entry) data) as [v|].
  - apply field_checks_paths.
  - simpl. repeat constructor.
Qed.

Lemma required_step_count (schema : Schema) (data : document) (prefix : string)
      (name : string) (ty : expected_type) (v : value) :
  constraints_are_intervals schema = true ->
  dict_get name data = Some v ->
  List.length (errors (required_step schema data prefix fresh (name, ty)))
  = (if isinstance v ty then 0 else 1)
    + (if passes_declared_constraints schema name v then 0 else 1).
Proof.
  intros Hint Hget. unfold required_step. simpl fst. simpl snd. rewrite Hget.
  rewrite field_checks_errors, length_app.
  rewrite (proj2 (validate_field_type_errors v ty _)).
  now rewrite (check_declared_constraints_count schema name v _ Hint).
Qed.

Lemma validate_curve_points_paths (p : string) (points : list value) :
  forall index,
    Forall (fun e => exists rest, path e = p ++ "[" ++ rest)
           (errors (validate_curve_points p index points fresh)).
Proof.
  induction points as [|point points IH]; intro index; [constructor|].
  rewrite validate_curve_points_cons. simpl.
  apply Forall_app. split; [|apply IH].
  unfold validate_curve_point.
  destruct (sequence_items point) as [[|x [|y [|z items]]]|];
    try (simpl; repeat constructor; simpl; eexists; reflexivity).
  destruct (negb (isinstance x numeric)), (negb (isinstance y numeric));
    simpl; repeat constructor; simpl;
    rewrite append_assoc; simpl; eexists; reflexivity.
Qed.

(** An error of an optional field is at the field's path, or at that path
    followed by an index. *)
Lemma optional_step_paths (schema : Schema) (data : document) (prefix : string)
      (entry : string * expected_type) :
  Forall (fun e => path e = make_field_path prefix (fst entry)
                   \/ exists rest,
                       path e = make_field_path prefix (fst entry) ++ "[" ++ rest)
         (errors (optional_step schema data prefix fresh entry)).
Proof.
  unfold optional_step.
  destruct (dict_get (fst entry) data) as [v|]; [|constructor].
  set (p := make_field_path prefix (fst entry)).
  assert (Hchecks : Forall (fun e => path e = p
                                     \/ exists rest, path e = p ++ "[" ++ rest)
            (errors (check_declared_constraints schema (fst entry) v p
                       (snd (validate_field_type v (snd entry) p fresh))))).
  { eapply Forall_impl; [|apply field_checks_paths]. simpl. auto. }
  assert (Hall : Forall (fun e => path e = p
                                  \/ exists rest, path e = p ++ "[" ++ rest)
            (errors
               (if endswith (fst entry) "_curve" && isinstance v (Single Tlist)
                then validate_curve v p
                       (check_declared_constraints schema (fst entry) v p
                          (snd (validate_field_type v (snd entry) p fresh)))
                else check_declared_constraints schema (fst entry) v p
                       (snd (validate_field_type v (snd entry) p fresh))))).
  { destruct (endswith (fst entry) "_curve"); [|exact Hchecks].
    destruct (isinstance v (Single Tlist)) eqn:Hlist; [|exact Hchecks].
    destruct (isinstance_list v Hlist) as [points ->]. simpl andb. cbv iota.
    rewrite (appender_errors _ (error_appender_appender _
               (validate_curve_appends (VList points) p))).
    apply Forall_app. split; [exact Hchecks|].
    eapply Forall_impl; [|apply (validate_curve_points_paths p points 0)].
    simpl. auto. }
  destruct v; try exact Hall. constructor.
Qed.

Lemma required_errors_elsewhere (schema : Schema) (data : document)
      (prefix name : string) (entries : list (string * expected_type)) :
  ~ In name (dict_keys entries) ->
  filter (path_is (make_field_path prefix name))
         (flat_map (fun e => errors (required_step schema data prefix fresh e))
                   entries)
  = [].
Proof.
  induction entries as [|entry entries IH]; intro Hnot; simpl; [reflexivity|].
  rewrite filter_app, IH by (intro H; apply Hnot; now right).
  rewrite app_nil_r. apply filter_none_at.
  eapply Forall_impl; [|apply required_step_paths].
  simpl. intros e He Heq. rewrite Heq in He.
  apply make_field_path_inj in He. apply Hnot. left. now symmetry.
Qed.

Lemma distinct_head (x : string) (xs : list string) :
  distinct (x :: xs) = true -> ~ In x xs /\ distinct xs = true.
Proof.
  simpl. intro H. apply andb_prop in H. destruct H as [Hx Hxs].
  split; [|assumption]. intro Hin. apply str_in_In in Hin.
  now rewrite Hin in Hx.
Qed.

Lemma required_errors_of_field (schema : Schema) (data : document)
      (prefix name : string) (ty : expected_type)
      (entries : list (string * expected_type)) :
  distinct (dict_keys entries) = true ->
  In (name, ty) entries ->
  filter (path_is (make_field_path prefix name))
         (flat_map (fun e => errors (required_step schema data prefix fresh e))
                   entries)
  = errors (required_step schema data prefix fresh (name, ty)).
Proof.
  induction entries as [|entry entries IH]; intros Hdistinct Hin;
    [contradiction|].
  change (dict_keys (entry :: entries))
    with (fst entry :: dict_keys entries) in Hdistinct.
  apply distinct_head in Hdistinct. destruct Hdistinct as [Hfirst Hrest].
  simpl. rewrite filter_app.
  destruct Hin as [Heq|Hin].
  - subst entry.
    rewrite (required_errors_elsewhere schema data prefix name entries Hfirst).
    rewrite app_nil_r. apply filter_all_at.
    exact (required_step_paths schema data prefix (name, ty)).
  - rewrite (IH Hrest Hin).
    rewrite filter_none_at; [reflexivity|].
    eapply Forall_impl; [|apply required_step_paths].
    simpl. intros e He Heq. rewrite Heq in He.
    apply make_field_path_inj in He. apply Hfirst.
    rewrite <- He. change name with (fst (name, ty)). now apply in_map.
Qed.

Lemma optional_errors_elsewhere (schema : Schema) (data : document)
      (prefix name : string) (entries : list (string * expected_type)) :
  forallb (separate_from name) (dict_keys entries) = true ->
  filter (path_is (make_field_path prefix name))
         (flat_map (fun e => errors (optional_step schema data prefix fresh e))
                   entries)
  = [].
Proof.
  induction entries as [|entry entries IH]; intro Hsep; simpl; [reflexivity|].
  simpl in Hsep. apply andb_prop in Hsep. destruct Hsep as [Hentry Hrest].
  rewrite filter_app, (IH Hrest), app_nil_r.
  apply filter_none_at.
  eapply Forall_impl; [|apply optional_step_paths].
  unfold separate_from in Hentry. apply andb_prop in Hentry.
  destruct Hentry as [Hname Hprefix].
  simpl. intros e [He|[rest He]] Heq; rewrite Heq in He.
  - apply make_field_path_inj in He. subst name.
    now rewrite String.eqb_refl in Hname.
  - symmetry in He. apply indexed_path_prefix in He.
    now rewrite He in Hprefix.
Qed.

(** The errors reported at the path of a required field are those of its
    own iteration of the loop over the required fields. *)
Lemma errors_at_required_field (data : document) (ct : ConfigType)
      (schema : Schema) (prefix file_name name : string) (ty : expected_type) :
  schemas_get ct SCHEMAS = Some schema ->
  In (name, ty) (required_fields schema) ->
  errors_at (make_field_path prefix name)
            (validate_config data ct (new_result file_name (Some ct)) prefix)
  = errors (required_step schema data prefix fresh (name, ty)).
Proof.
  intros Hs Hin.
  destruct (schemas_well_formed ct schema Hs) as [Hsep _].
  unfold required_paths_separate in Hsep. apply andb_prop in Hsep.
  destruct Hsep as [Hdistinct Hoptional].
  unfold errors_at.
  rewrite (validate_config_errors data ct schema prefix _ Hs). simpl.
  rewrite filter_app.
  rewrite (required_errors_of_field schema data prefix name ty _ Hdistinct Hin).
  rewrite optional_errors_elsewhere; [apply app_nil_r|].
  rewrite forallb_forall in Hoptional. apply Hoptional.
  change name with (fst (name, ty)). now apply in_map.
Qed.

(** The type check and the constraint check of a required field fail
    together only for a float held by the [int] field [shots_per_burst]. *)
Lemma both_checks_fail (ct : ConfigType) (schema : Schema) (name : string)
      (ty : expected_type) (v : value) :
  schemas_get ct SCHEMAS = Some schema ->
  In (name, ty) (required_fields schema) ->
  isinstance v ty = false ->
  passes_declared_constraints schema name v = false ->
  name = "shots_per_burst" /\ ty = Single Tint /\ exists f, v = VFloat f.
Proof.
  intros Hs Hin Hty Hrange.
  destruct ct; simpl in Hs; injection Hs as <-; simpl in Hin;
    repeat (destruct Hin as [Hin|Hin]; [injection Hin as <- <-|]);
    try contradiction;
    try (vm_compute in Hrange; discriminate Hrange);
    destruct v; try discriminate Hty; try discriminate Hrange.
  repeat split. now exists f.
Qed.

(** C2, as amended. For a required field of the kind's schema: when the
    document lacks it, exactly one error is reported at the field's path,
    and it says the field is missing; when the document has it, the errors at
    its path are one for a failed type check plus one for a failed constraint
    check, so none when both pass, one when one fails, and two when both
    fail, which only a float in the [int] field [shots_per_burst] does. *)
Theorem required_field_errors :
  forall (ct : ConfigType) (schema : Schema) (data : document)
         (prefix file_name name : string) (ty : expected_type),
    schemas_get ct SCHEMAS = Some schema ->
    In (name, ty) (required_fields schema) ->
    let field_path := make_field_path prefix name in
    let result :=
      validate_config data ct (new_result file_name (Some ct)) prefix in
    (dict_get name data = None ->
     errors_at field_path result
     = [mkError field_path
          [Lit ("Required field '" ++ name ++ "' is missing")] "error"]
     /\ mentions "missing"
          [Lit ("Required field '" ++ name ++ "' is missing")] = true)
    /\ (forall v,
           dict_get name data = Some v ->
           List.length (errors_at field_path result)
           = (if isinstance v ty then 0 else 1)
             + (if passes_declared_constraints schema name v then 0 else 1)
           /\ (isinstance v ty = false ->
               passes_declared_constraints schema name v = false ->
               name = "shots_per_burst" /\ ty = Single Tint
               /\ exists f, v = VFloat f)).
Proof.
  intros ct schema data prefix file_name name ty Hs Hin field_path result.
  assert (Hat : errors_at field_path result
                = errors (required_step schema data prefix fresh (name, ty))).
  { now apply errors_at_required_field. }
  split.
  - intro Hnone. split.
    + rewrite Hat. unfold required_step. simpl fst. now rewrite Hnone.
    + unfold mentions. simpl existsb. rewrite orb_false_r.
      apply (contains_append_r "missing" "Required field '"
                               (name ++ "' is missing")).
      apply (contains_append_r "missing" name "' is missing").
      reflexivity.
  - intros v Hget. split.
    + rewrite Hat. apply required_step_count; [|assumption].
      now destruct (schemas_well_formed ct schema Hs).
    + now apply (both_checks_fail ct schema).
Qed.

(** C2, as stated, fails: [shots_per_burst: 0.5] is present and gets two
    errors, one from the type check and one from the constraint check. *)
Lemma present_field_with_two_errors :
  In ("shots_per_burst", Single Tint) (required_fields weapon_stats_schema)
  /\ dict_get "shots_per_burst" weapon_with_fractional_burst
     = Some (VFloat float_0_5)
  /\ errors (validate_config weapon_with_fractional_burst WEAPON_STATS
               (new_result "weapon.json" (Some WEAPON_STATS)) "")
     = [mkError "shots_per_burst" [Lit "Expected int, got float"] "error";
        mkError "shots_per_burst"
          (below_minimum_message (VFloat float_0_5) (NInt 1)) "error"].
Proof.
  split; [|split]; [right; left| |]; reflexivity.
Qed.

(** A weapon that lacks [fire_rate], and the one whose [shots_per_burst] is
    0.5. *)
Lemma required_field_errors_witness :
  errors_at "fire_rate"
    (validate_config [("name", VStr "s")] WEAPON_STATS
       (new_result "weapon.json" (Some WEAPON_STATS)) "")
  = [mkError "fire_rate" [Lit "Required field 'fire_rate' is missing"] "error"]
  /\ List.length
       (errors_at "shots_per_burst"
          (validate_config weapon_with_fractional_burst WEAPON_STATS
             (new_result "weapon.json" (Some WEAPON_STATS)) ""))
     = 2.
Proof.
  split.
  - apply (proj1 (required_field_errors WEAPON_STATS weapon_stats_schema
                    [("name", VStr "s")] "" "weapon.json" "fire_rate"
                    int_or_float eq_refl
                    (or_intror (or_intror (or_introl eq_refl))))).
    reflexivity.
  - apply (proj1 (proj2 (required_field_errors WEAPON_STATS weapon_stats_schema
                           weapon_with_fractional_burst "" "weapon.json"
                           "shots_per_burst" (Single Tint) eq_refl
                           (or_intror (or_introl eq_refl)))
                        (VFloat float_0_5) eq_refl)).
Defined.

(** The second point of the weapon's curve, reported inside the document's
    validation. *)
Lemma curve_points_checked_witness :
  In (mkError "range_curve[1][1]" [Lit "Y value must be numeric, got str"] "error")
     (errors (validate_config weapon_with_bad_curve WEAPON_STATS
                (new_result "weapon.json" (Some WEAPON_STATS)) "")).
Proof.
  pose (points := [VList [VInt 0; VFloat float_1_0]; VList [VInt 1; VStr "bad"]]).
  pose proof (curve_points_checked points "range_curve" fresh) as H.
  destruct H as [_ [Hpoint _]].
  pose proof (curve_points_checked points ""
                (new_result "weapon.json" (Some WEAPON_STATS))) as H.
  destruct H as [_ [_ [Hconfig _]]].
  apply (Hconfig weapon_with_bad_curve WEAPON_STATS weapon_stats_schema ""
                 "range_curve" (Single Tlist)).
  - reflexivity.
  - right. left. reflexivity.
  - reflexivity.
  - reflexivity.
  - apply (proj2 (proj2 (Hpoint 1%nat (VList [VInt 1; VStr "bad"]) eq_refl)
                        (VInt 1) (VStr "bad") eq_refl)).
    reflexivity.
Defined.

(* ================================================================== *)
(** ** More on detection *)

(** A weapon document that names itself in mixed case and also carries an
    [archetypes] list, and an upgrade recognised by its multiplier. *)
Lemma detect_priority_witness :
  detect_config_type [("type", VStr "weaponSTATS"); ("archetypes", VList [])]
  = Ok (Some WEAPON_STATS)
  /\ detect_config_type [("type", VStr "Squad"); ("damage_multiplier", VInt 2)]
     = Ok (detect_by_fields
             [("type", VStr "Squad"); ("damage_multiplier", VInt 2)])
  /\ detect_by_fields [("type", VStr "Squad"); ("damage_multiplier", VInt 2)]
     = Some UPGRADE_DEFINITION.
Proof.
  split; [|split].
  - apply (proj1 (detect_priority
                    [("type", VStr "weaponSTATS"); ("archetypes", VList [])])
                 "weaponSTATS" WEAPON_STATS); reflexivity.
  - apply (proj1 (proj2 (detect_priority
                           [("type", VStr "Squad");
                            ("damage_multiplier", VInt 2)]))).
    right. exists "Squad". split; [reflexivity|].
    intro k. destruct k; discriminate.
  - apply (proj1 (proj2 (proj2 (proj2 (proj2 (detect_priority
                           [("type", VStr "Squad");
                            ("damage_multiplier", VInt 2)]))))));
      reflexivity.
Defined.

(* ================================================================== *)
(** ** Whole-document behaviour *)

Lemma required_loop_on_empty (schema : Schema) (prefix : string)
      (entries : list (string * expected_type)) :
  forall r,
    fold_left (required_step schema [] prefix) entries r
    = emits (map (fun entry =>
                    mkError (make_field_path prefix (fst entry))
                      [Lit ("Required field '" ++ fst entry ++ "' is missing")]
                      "error") entries) [] r.
Proof.
  induction entries as [|entry entries IH]; intro r; simpl.
  - symmetry; apply emits_nil.
  - rewrite IH. unfold required_step at 1. simpl dict_get. cbv iota.
    rewrite add_error_emits, emits_emits. reflexivity.
Qed.

(** X2. The empty document of any kind gets exactly one error per required
    field of the kind's schema, in schema order, each at the field's path and
    saying the field is missing, and no warning. *)
Theorem empty_document_misses_every_required_field :
  forall (ct : ConfigType) (schema : Schema) (prefix file_name : string),
    schemas_get ct SCHEMAS = Some schema ->
    validate_config [] ct (new_result file_name (Some ct)) prefix
    = mkResult file_name (Some ct)
        (map (fun entry =>
                mkError (make_field_path prefix (fst entry))
                  [Lit ("Required field '" ++ fst entry ++ "' is missing")]
                  "error") (required_fields schema))
        [].
Proof.
  intros ct schema prefix file_name Hs.
  rewrite (validate_config_unfold [] ct schema prefix _ Hs).
  unfold schema_loops. rewrite required_loop_on_empty.
  rewrite (fold_left_fixed (optional_step schema [] prefix));
    [|intros entry _; reflexivity].
  reflexivity.
Qed.

(** The empty weapon document: five errors, from [name] to [base_damage]. *)
Lemma empty_document_misses_every_required_field_witness :
  map path (errors (validate_config [] WEAPON_STATS
                      (new_result "weapon.json" (Some WEAPON_STATS)) ""))
  = ["name"; "shots_per_burst"; "fire_rate"; "base_hit_chance"; "base_damage"].
Proof.
  rewrite (empty_document_misses_every_required_field
             WEAPON_STATS weapon_stats_schema "" "weapon.json" eq_refl).
  reflexivity.
Defined.

Lemma unknown_warnings_list (schema : Schema) (prefix : string)
      (names : list string) :
  flat_map (fun k => warnings (unknown_step schema prefix fresh k)) names
  = map (fun k => mkError (make_field_path prefix k)
                    [Lit ("Unknown field '" ++ k ++ "'")] "warning")
        (filter (fun k => negb (str_in k (known_fields schema))) names).
Proof.
  induction names as [|k names IH]; simpl; [reflexivity|].
  rewrite IH, unknown_step_warnings.
  now destruct (str_in k (known_fields schema)).
Qed.

(** X3. The warnings of a validation are exactly the document's fields
    that the schema does not declare (and that are not [type]), one warning
    each, in document order; a declared field never gets a warning. *)
Theorem warnings_list_unknown_fields :
  forall (ct : ConfigType) (schema : Schema) (data : document)
         (prefix file_name : string),
    schemas_get ct SCHEMAS = Some schema ->
    warnings (validate_config data ct (new_result file_name (Some ct)) prefix)
    = map (fun k => mkError (make_field_path prefix k)
                      [Lit ("Unknown field '" ++ k ++ "'")] "warning")
          (filter (fun k => negb (str_in k (known_fields schema)))
                  (dict_keys data)).
Proof.
  intros ct schema data prefix file_name Hs.
  rewrite (validate_config_warnings data ct schema prefix _ Hs). simpl.
  apply unknown_warnings_list.
Qed.

(** An archetype with two unknown fields around a known one. *)
Lemma warnings_list_unknown_fields_witness :
  map path
      (warnings (validate_config
                   [("zeta", VInt 1); ("id", VStr "spearman"); ("alpha", VNone)]
                   UNIT_ARCHETYPE
                   (new_result "unit.yaml" (Some UNIT_ARCHETYPE)) "units[3]"))
  = ["units[3].zeta"; "units[3].alpha"].
Proof.
  rewrite (warnings_list_unknown_fields UNIT_ARCHETYPE unit_archetype_schema
             _ "units[3]" "unit.yaml" eq_refl).
  reflexivity.
Defined.

(** X4. Every error of a validation is located at a field the schema
    declares: at the path of a required or optional field, or at that path
    followed by an index. Fields outside the schema never carry an error. *)
Theorem errors_only_at_declared_fields :
  forall (ct : ConfigType) (schema : Schema) (data : document)
         (prefix file_name : string) (e : ValidationError),
    schemas_get ct SCHEMAS = Some schema ->
    In e (errors (validate_config data ct (new_result file_name (Some ct)) prefix)) ->
    exists name,
      In name (dict_keys (required_fields schema)
               ++ dict_keys (optional_fields_of schema))%list
      /\ (path e = make_field_path prefix name
          \/ exists rest, path e = make_field_path prefix name ++ "[" ++ rest).
Proof.
  intros ct schema data prefix file_name e Hs Hin.
  rewrite (validate_config_errors data ct schema prefix _ Hs) in Hin.
  simpl in Hin. apply in_app_or in Hin. destruct Hin as [Hin|Hin];
    apply in_flat_map in Hin; destruct Hin as [entry [Hentry He]];
    exists (fst entry); split.
  - apply in_or_app. left. now apply in_map.
  - left.
    exact (proj1 (Forall_forall _ _)
                 (required_step_paths schema data prefix entry) e He).
  - apply in_or_app. right. now apply in_map.
  - exact (proj1 (Forall_forall _ _)
                 (optional_step_paths schema data prefix entry) e He).
Qed.

(** The one error of the weapon with the bad curve point. *)
Lemma errors_only_at_declared_fields_witness :
  exists name,
    In name (dict_keys (required_fields weapon_stats_schema)
             ++ dict_keys (optional_fields_of weapon_stats_schema))%list
    /\ ("range_curve[1][1]" = make_field_path "" name
        \/ exists rest,
            "range_curve[1][1]" = make_field_path "" name ++ "[" ++ rest).
Proof.
  apply (errors_only_at_declared_fields WEAPON_STATS weapon_stats_schema
           weapon_with_bad_curve "" "weapon.json"
           (mkError "range_curve[1][1]"
              [Lit "Y value must be numeric, got str"] "error") eq_refl).
  left. reflexivity.
Defined.

(* ================================================================== *)
(** ** Null values *)

Lemma fold_left_same_steps {A : Type}
      (f g : ValidationResult -> A -> ValidationResult) (xs : list A) :
  (forall x, In x xs -> forall r, f r x = g r x) ->
  forall r, fold_left f xs r = fold_left g xs r.
Proof.
  induction xs as [|x xs IH]; intros H r; simpl; [reflexivity|].
  rewrite (H x (or_introl eq_refl) r). apply IH.
  intros y Hy. apply H. now right.
Qed.

Lemma dict_get_without_itself (name : string) (data : document) :
  dict_get name (without_field name data) = None.
Proof.
  induction data as [|[k v] data IH]; simpl; [reflexivity|].
  destruct (String.eqb k name) eqn:Hk; simpl; [exact IH|].
  now rewrite Hk.
Qed.

Lemma unknown_loop_without_known_field (schema : Schema) (prefix name : string)
      (data : document) :
  str_in name (known_fields schema) = true ->
  forall r,
    fold_left (unknown_step schema prefix) (dict_keys (without_field name data)) r
    = fold_left (unknown_step schema prefix) (dict_keys data) r.
Proof.
  intro Hknown. induction data as [|[k v] data IH]; intro r; simpl;
    [reflexivity|].
  destruct (String.eqb k name) eqn:Hk; simpl.
  - apply String.eqb_eq in Hk. subst k.
    rewrite (unknown_step_known schema prefix name r Hknown). apply IH.
  - apply IH.
Qed.

Lemma optional_name_not_required (ct : ConfigType) (schema : Schema)
      (name : string) (ty : expected_type) (entry : string * expected_type) :
  schemas_get ct SCHEMAS = Some schema ->
  In (name, ty) (optional_fields_of schema) ->
  In entry (required_fields schema) ->
  fst entry <> name.
Proof.
  intros Hs Hopt Hreq Heq.
  destruct (schemas_well_formed ct schema Hs) as [Hsep _].
  unfold required_paths_separate in Hsep. apply andb_prop in Hsep.
  destruct Hsep as [_ Hsep]. rewrite forallb_forall in Hsep.
  pose proof (Hsep (fst entry) (in_map fst _ _ Hreq)) as Hone.
  rewrite forallb_forall in Hone.
  pose proof (Hone name (in_map fst _ _ Hopt)) as Htwo.
  unfold separate_from in Htwo. apply andb_prop in Htwo.
  destruct Htwo as [Hne _]. rewrite Heq, String.eqb_refl in Hne. discriminate.
Qed.

(** X5. An optional field set to null counts as absent: the document with
    the null field and the document without it validate to the same result,
    errors and warnings alike. *)
Theorem null_optional_field_is_absent :
  forall (ct : ConfigType) (schema : Schema) (data : document)
         (prefix name : string) (ty : expected_type) (r : ValidationResult),
    schemas_get ct SCHEMAS = Some schema ->
    In (name, ty) (optional_fields_of schema) ->
    dict_get name data = Some VNone ->
    validate_config data ct r prefix
    = validate_config (without_field name data) ct r prefix.
Proof.
  intros ct schema data prefix name ty r Hs Hopt Hnull.
  rewrite !(validate_config_unfold _ ct schema prefix r Hs).
  assert (Hknown : str_in name (known_fields schema) = true).
  { apply str_in_In. unfold known_fields.
    apply in_or_app. right. apply in_or_app. left.
    change name with (fst (name, ty)). now apply in_map. }
  rewrite (unknown_loop_without_known_field schema prefix name data Hknown).
  f_equal. unfold schema_loops.
  rewrite (fold_left_same_steps
             (required_step schema data prefix)
             (required_step schema (without_field name data) prefix)).
  - apply fold_left_same_steps. intros entry Hin r'.
    destruct (String.eqb (fst entry) name) eqn:Hname.
    + apply String.eqb_eq in Hname. unfold optional_step.
      now rewrite Hname, Hnull, dict_get_without_itself.
    + apply String.eqb_neq in Hname. symmetry.
      apply optional_step_same_field. now apply dict_get_without_field.
  - intros entry Hin r'. symmetry.
    apply required_step_same_field, dict_get_without_field.
    now apply (optional_name_not_required ct schema name ty).
Qed.

(** An upgrade whose [cost] is null. *)
Lemma null_optional_field_is_absent_witness :
  validate_config
    [("name", VStr "Veterans"); ("cost", VNone); ("rank", VInt 2)]
    UPGRADE_DEFINITION fresh ""
  = validate_config
      [("name", VStr "Veterans"); ("rank", VInt 2)]
      UPGRADE_DEFINITION fresh "".
Proof.
  apply (null_optional_field_is_absent UPGRADE_DEFINITION
           upgrade_definition_schema
           [("name", VStr "Veterans"); ("cost", VNone); ("rank", VInt 2)]
           "" "cost" (Single Tint) fresh eq_refl).
  - right. right. right. right. left. reflexivity.
  - reflexivity.
Defined.

(** X6. A required field set to null is not missing but mistyped: it gets
    exactly one error at its path, the type error naming [NoneType]. *)
Theorem null_required_field_is_mistyped :
  forall (ct : ConfigType) (schema : Schema) (data : document)
         (prefix file_name name : string) (ty : expected_type),
    schemas_get ct SCHEMAS = Some schema ->
    In (name, ty) (required_fields schema) ->
    dict_get name data = Some VNone ->
    exists text,
      errors_at (make_field_path prefix name)
        (validate_config data ct (new_result file_name (Some ct)) prefix)
      = [mkError (make_field_path prefix name) [Lit text] "error"]
      /\ String.prefix "Expected " text = true
      /\ contains ", got NoneType" text = true.
Proof.
  intros ct schema data prefix file_name name ty Hs Hin Hnull.
  rewrite (errors_at_required_field data ct schema prefix file_name name ty Hs Hin).
  unfold required_step. simpl fst. simpl snd. rewrite Hnull.
  destruct ct; simpl in Hs; injection Hs as <-; simpl in Hin;
    repeat (destruct Hin as [Hin|Hin]; [injection Hin as <- <-|]);
    try contradiction;
    eexists; (split; [reflexivity|split; reflexivity]).
Qed.

(** An era whose [name] is null. *)
Lemma null_required_field_is_mistyped_witness :
  exists text,
    errors_at "name"
      (validate_config [("name", VNone); ("archetypes", VList [])] ERA_CONFIG
         (new_result "era.yaml" (Some ERA_CONFIG)) "")
    = [mkError "name" [Lit text] "error"]
    /\ String.prefix "Expected " text = true
    /\ contains ", got NoneType" text = true.
Proof.
  apply (null_required_field_is_mistyped ERA_CONFIG era_schema
           [("name", VNone); ("archetypes", VList [])] "" "era.yaml"
           "name" (Single Tstr) eq_refl).
  - left. reflexivity.
  - reflexivity.
Defined.

(* ================================================================== *)
(** ** Not-a-number and the infinities *)

(** X7. A NaN passes every numeric check: it has the type [(int, float)],
    no constraint reports it, and a required or optional numeric field
    holding it adds nothing to the result. The infinities are ordinary
    floats for the type check but lie outside every integer bound. *)
Theorem nan_passes_every_check :
  forall (schema : Schema) (data : document) (prefix name : string)
         (c : constraint) (p : string) (r : ValidationResult),
    validate_field_type (VFloat S754_nan) int_or_float p r = (true, r)
    /\ validate_constraints (VFloat S754_nan) c p r = r
    /\ (dict_get name data = Some (VFloat S754_nan) ->
        required_step schema data prefix r (name, int_or_float) = r
        /\ optional_step schema data prefix r (name, int_or_float) = r)
    /\ (forall z, num_gt (NFloat (S754_infinity false)) (NInt z) = true
                  /\ num_lt (NFloat (S754_infinity true)) (NInt z) = true)
    /\ (forall z, dict_get "max" c = Some (NInt z) ->
                  In (mkError p (exceeds_maximum_message
                                   (VFloat (S754_infinity false)) (NInt z)) "error")
                     (errors (validate_constraints
                                (VFloat (S754_infinity false)) c p r))).
Proof.
  intros schema data prefix name c p r.
  assert (Hnan : validate_constraints (VFloat S754_nan) c p r = r).
  { unfold validate_constraints. simpl as_num. cbv iota.
    destruct (dict_get "min" c) as [[z|f]|], (dict_get "max" c) as [[z'|f']|];
      try reflexivity;
      try (destruct f as [s|s| |s m e]); try (destruct f' as [s'|s'| |s' m' e']);
      reflexivity. }
  assert (Hdeclared : forall q result,
             check_declared_constraints schema name (VFloat S754_nan) q result
             = result).
  { intros q result. apply check_declared_constraints_passes.
    unfold passes_declared_constraints.
    destruct (constraints schema) as [table|]; [|reflexivity].
    destruct (dict_get name table) as [c'|]; [|reflexivity].
    unfold passes_constraints. simpl as_num. cbv iota.
    destruct (dict_get "min" c') as [[z|f]|], (dict_get "max" c') as [[z'|f']|];
      try reflexivity;
      try (destruct f as [s|s| |s m e]); try (destruct f' as [s'|s'| |s' m' e']);
      reflexivity. }
  split; [reflexivity|]. split; [exact Hnan|]. split; [|split].
  - intro Hget. split.
    + unfold required_step. simpl fst. simpl snd. rewrite Hget. simpl snd.
      apply Hdeclared.
    + unfold optional_step. simpl fst. simpl snd. rewrite Hget.
      simpl snd. rewrite Hdeclared.
      now rewrite andb_false_r.
  - intro z. split; reflexivity.
  - intros z Hmax. unfold validate_constraints. simpl as_num. cbv iota.
    rewrite Hmax.
    change (num_gt (NFloat (S754_infinity false)) (NInt z)) with true.
    cbv iota. simpl. apply in_or_app. right. now left.
Qed.

(** A weapon whose [base_damage] is NaN. *)
Lemma nan_passes_every_check_witness :
  required_step weapon_stats_schema [("base_damage", VFloat S754_nan)] ""
    fresh ("base_damage", int_or_float) = fresh
  /\ In (mkError "base_damage"
           (exceeds_maximum_message (VFloat (S754_infinity false)) (NInt 10000))
           "error")
        (errors (validate_constraints (VFloat (S754_infinity false))
                   [("min", NInt 0); ("max", NInt 10000)] "base_damage" fresh)).
Proof.
  pose proof (nan_passes_every_check weapon_stats_schema
                [("base_damage", VFloat S754_nan)] "" "base_damage"
                [("min", NInt 0); ("max", NInt 10000)] "base_damage" fresh) as H.
  destruct H as [_ [_ [Hstep [_ Hinf]]]]. split.
  - exact (proj1 (Hstep eq_refl)).
  - exact (Hinf 10000%Z eq_refl).
Defined.

(* ================================================================== *)
(** ** Severities *)

Lemma validate_field_type_severity (v : value) (ty : expected_type) (p : string) :
  Forall (fun e => severity e = "error")
         (errors (snd (validate_field_type v ty p fresh))).
Proof.
  unfold validate_field_type.
  destruct ty; destruct (negb _); simpl; repeat constructor.
Qed.

Lemma validate_constraints_severity (v : value) (c : constraint) (p : string) :
  Forall (fun e => severity e = "error")
         (errors (validate_constraints v c p fresh)).
Proof.
  unfold validate_constraints.
  destruct (as_num v) as [n|]; [|constructor].
  destruct (dict_get "min" c) as [lo|]; [destruct (num_lt n lo)|];
    (destruct (dict_get "max" c) as [hi|]; [destruct (num_gt n hi)|]);
    simpl; repeat constructor.
Qed.

Lemma field_checks_severity (schema : Schema) (name : string) (v : value)
      (ty : expected_type) (p : string) :
  Forall (fun e => severity e = "error")
         (errors (check_declared_constraints schema name v p
                    (snd (validate_field_type v ty p fresh)))).
Proof.
  rewrite field_checks_errors. apply Forall_app. split.
  - apply validate_field_type_severity.
  - unfold check_declared_constraints.
    destruct (constraints schema) as [table|]; [|constructor].
    destruct (dict_get name table) as [c|]; [|constructor].
    apply validate_constraints_severity.
Qed.

Lemma required_step_severity (schema : Schema) (data : document)
      (prefix : string) (entry : string * expected_type) :
  Forall (fun e => severity e = "error")
         (errors (required_step schema data prefix fresh entry)).
Proof.
  unfold required_step.
  destruct (dict_get (fst entry) data) as [v|].
  - apply field_checks_severity.
  - simpl. repeat constructor.
Qed.

Lemma validate_curve_points_severity (p : string) (points : list value) :
  forall index,
    Forall (fun e => severity e = "error")
           (errors (validate_curve_points p index points fresh)).
Proof.
  induction points as [|point points IH]; intro index; [constructor|].
  rewrite validate_curve_points_cons. simpl.
  apply Forall_app. split; [|apply IH].
  unfold validate_curve_point.
  destruct (sequence_items point) as [[|x [|y [|z items]]]|];
    [ simpl; repeat constructor | simpl; repeat constructor |
    | simpl; repeat constructor | simpl; repeat constructor ].
  destruct (negb (isinstance x numeric)), (negb (isinstance y numeric));
    simpl; repeat constructor.
Qed.

Lemma optional_step_severity (schema : Schema) (data : document)
      (prefix : string) (entry : string * expected_type) :
  Forall (fun e => severity e = "error")
         (errors (optional_step schema data prefix fresh entry)).
Proof.
  unfold optional_step.
  destruct (dict_get (fst entry) data) as [v|]; [|constructor].
  set (p := make_field_path prefix (fst entry)).
  pose proof (field_checks_severity schema (fst entry) v (snd entry) p)
    as Hchecks.
  assert (Hall : Forall (fun e => severity e = "error")
            (errors
               (if endswith (fst entry) "_curve" && isinstance v (Single Tlist)
                then validate_curve v p
                       (check_declared_constraints schema (fst entry) v p
                          (snd (validate_field_type v (snd entry) p fresh)))
                else check_declared_constraints schema (fst entry) v p
                       (snd (validate_field_type v (snd entry) p fresh))))).
  { destruct (endswith (fst entry) "_curve"); [|exact Hchecks].
    destruct (isinstance v (Single Tlist)) eqn:Hlist; [|exact Hchecks].
    destruct (isinstance_list v Hlist) as [points ->]. simpl andb. cbv iota.
    rewrite (appender_errors _ (error_appender_appender _
               (validate_curve_appends (VList points) p))).
    apply Forall_app. split; [exact Hchecks|].
    apply (validate_curve_points_severity p points 0). }
  destruct v; try exact Hall. constructor.
Qed.

Lemma validate_config_severity (data : document) (ct : ConfigType)
      (prefix : string) (r : ValidationResult) :
  Forall (fun e => severity e = "error") (errors r) ->
  Forall (fun w => severity w = "warning") (warnings r) ->
  Forall (fun e => severity e = "error")
         (errors (validate_config data ct r prefix))
  /\ Forall (fun w => severity w = "warning")
            (warnings (validate_config data ct r prefix)).
Proof.
  intros He Hw.
  destruct (schemas_get ct SCHEMAS) as [schema|] eqn:Hs.
  - rewrite (validate_config_errors data ct schema prefix r Hs).
    rewrite (validate_config_warnings data ct schema prefix r Hs).
    rewrite unknown_warnings_list. split.
    + apply Forall_app. split; [assumption|]. apply Forall_app. split;
        apply Forall_flat_map, Forall_forall; intros entry _.
      * apply required_step_severity.
      * apply optional_step_severity.
    + apply Forall_app. split; [assumption|].
      apply Forall_forall. intros w Hin. apply in_map_iff in Hin.
      destruct Hin as [k [<- _]]. reflexivity.
  - unfold validate_config. rewrite Hs. simpl. split; [|assumption].
    apply Forall_app. split; [assumption|]. repeat constructor.
Qed.

(** X8. Every entry of a result's error list has severity [error] and
    every entry of its warning list has severity [warning]:
    [validate_config] keeps this, and every result of [validate_file] has
    it. So an error always prints as [[ERROR] path: message] and a warning
    as [[WARNING] path: message]. *)
Theorem entries_carry_the_severity_of_their_list :
  forall (file_name : string) (loaded : value * option string)
         (r : ValidationResult),
    validate_file file_name loaded = Ok r ->
    (forall e, In e (errors r) ->
               severity e = "error"
               /\ ValidationError_str e
                  = Lit ("[ERROR] " ++ path e ++ ": ") :: message e)
    /\ (forall w, In w (warnings r) ->
                  severity w = "warning"
                  /\ ValidationError_str w
                     = Lit ("[WARNING] " ++ path w ++ ": ") :: message w).
Proof.
  intros file_name loaded r Hr.
  assert (H : Forall (fun e => severity e = "error") (errors r)
              /\ Forall (fun w => severity w = "warning") (warnings r)).
  { unfold validate_file in Hr.
    destruct (snd loaded) as [[|c rest]|].
    - destruct (fst loaded) as [| | | | | | |data];
        try (injection Hr as <-; simpl; split; repeat constructor).
      destruct (detect_config_type data) as [[ct|]|]; try discriminate;
        injection Hr as <-.
      + apply validate_config_severity; constructor.
      + simpl; split; repeat constructor.
    - injection Hr as <-. simpl. split; repeat constructor.
    - destruct (fst loaded) as [| | | | | | |data];
        try (injection Hr as <-; simpl; split; repeat constructor).
      destruct (detect_config_type data) as [[ct|]|]; try discriminate;
        injection Hr as <-.
      + apply validate_config_severity; constructor.
      + simpl; split; repeat constructor. }
  destruct H as [He Hw]. rewrite Forall_forall in He, Hw. split.
  - intros e Hin. pose proof (He e Hin) as Hsev. split; [assumption|].
    unfold ValidationError_str. now rewrite Hsev.
  - intros w Hin. pose proof (Hw w Hin) as Hsev. split; [assumption|].
    unfold ValidationError_str. now rewrite Hsev.
Qed.

(** The archetype with one unknown field: its warning as it prints. *)
Lemma entries_carry_the_severity_of_their_list_witness :
  ValidationError_str
    (mkError "unknown_field" [Lit "Unknown field 'unknown_field'"] "warning")
  = [Lit "[WARNING] unknown_field: "; Lit "Unknown field 'unknown_field'"].
Proof.
  apply (proj2 (entries_carry_the_severity_of_their_list "unit.yaml"
                  (VDict archetype_with_extra_field, None)
                  (add_warning "unknown_field"
                     [Lit "Unknown field 'unknown_field'"]
                     (new_result "unit.yaml" (Some UNIT_ARCHETYPE)))
                  eq_refl)).
  left. reflexivity.
Defined.

(* ================================================================== *)
(** ** The results of [validate_file] *)

Lemma validate_config_keeps_header (data : document) (ct : ConfigType)
      (prefix : string) (r : ValidationResult) :
  file_path (validate_config data ct r prefix) = file_path r
  /\ config_type (validate_config data ct r prefix) = config_type r.
Proof.
  destruct (validate_config_appends data ct prefix) as [es [ws H]].
  rewrite H. split; reflexivity.
Qed.

(** X9. A result of [validate_file] carries the file's name. It has no
    kind exactly in the three cases that end the validation early (a load
    error, a top level that is not a mapping, no detectable kind), and then
    it holds one error, at [file] or [root], and no warning. A result with a
    kind is the validation of the mapping as the detected kind. So a valid
    result always names its kind. *)
Theorem validate_file_outcomes :
  forall (file_name : string) (loaded : value * option string)
         (r : ValidationResult),
    validate_file file_name loaded = Ok r ->
    file_path r = file_name
    /\ (config_type r = None ->
        warnings r = []
        /\ exists e, errors r = [e] /\ (path e = "file" \/ path e = "root"))
    /\ (forall ct, config_type r = Some ct ->
          exists data,
            fst loaded = VDict data
            /\ detect_config_type data = Ok (Some ct)
            /\ r = validate_config data ct (new_result file_name (Some ct)) "")
    /\ (is_valid r = true -> exists ct, config_type r = Some ct).
Proof.
  intros file_name loaded r Hr.
  assert (Hcases :
            (config_type r = None /\ file_path r = file_name /\ warnings r = []
             /\ exists e, errors r = [e] /\ (path e = "file" \/ path e = "root"))
            \/ (exists data ct,
                   fst loaded = VDict data
                   /\ detect_config_type data = Ok (Some ct)
                   /\ r = validate_config data ct
                            (new_result file_name (Some ct)) "")).
  { unfold validate_file in Hr.
    destruct (snd loaded) as [[|c rest]|].
    - destruct (fst loaded) as [| | | | | | |data];
        try (injection Hr as <-; left; simpl; repeat split; eexists;
             split; [reflexivity | now right]).
      destruct (detect_config_type data) as [[ct|]|] eqn:Hd; try discriminate;
        injection Hr as <-.
      + right. now exists data, ct.
      + left. simpl. repeat split. eexists. split; [reflexivity | now right].
    - injection Hr as <-. left. simpl. repeat split. eexists.
      split; [reflexivity | now left].
    - destruct (fst loaded) as [| | | | | | |data];
        try (injection Hr as <-; left; simpl; repeat split; eexists;
             split; [reflexivity | now right]).
      destruct (detect_config_type data) as [[ct|]|] eqn:Hd; try discriminate;
        injection Hr as <-.
      + right. now exists data, ct.
      + left. simpl. repeat split. eexists. split; [reflexivity | now right]. }
  destruct Hcases as [[Hnone [Hname [Hw [e [He Hpath]]]]] | [data [ct [Hl [Hd ->]]]]].
  - split; [assumption|]. split; [|split].
    + intros _. split; [assumption|]. now exists e.
    + intros ct Hct. rewrite Hnone in Hct. discriminate.
    + intro Hvalid. apply is_valid_errors in Hvalid. rewrite He in Hvalid.
      discriminate.
  - destruct (validate_config_keeps_header data ct ""
                (new_result file_name (Some ct))) as [Hname Hkind].
    simpl in Hname, Hkind.
    split; [assumption|]. split; [|split].
    + intro Hnone. rewrite Hkind in Hnone. discriminate.
    + intros ct' Hct. rewrite Hkind in Hct. injection Hct as <-.
      now exists data.
    + intros _. now exists ct.
Qed.

(** A list at the top level, and the spearman of the tests. *)
Lemma validate_file_outcomes_witness :
  (warnings (add_error "root" [Lit "Expected dictionary, got list"]
               (new_result "list.json" None)) = []
   /\ exists e,
       errors (add_error "root" [Lit "Expected dictionary, got list"]
                 (new_result "list.json" None)) = [e]
       /\ (path e = "file" \/ path e = "root"))
  /\ exists ct, config_type (new_result "unit.json" (Some UNIT_ARCHETYPE)) = Some ct.
Proof.
  split.
  - exact (proj1 (proj2 (validate_file_outcomes "list.json"
                           (VList [VStr "list"], None) _ eq_refl)) eq_refl).
  - exact (proj2 (proj2 (proj2 (validate_file_outcomes "unit.json"
                                  (VDict spearman, None) _ eq_refl))) eq_refl).
Defined.

(* ================================================================== *)
(** ** The size of a curve's report *)

Lemma validate_curve_point_at_most_two (p : string) (index : nat) (point : value) :
  (List.length (errors (validate_curve_point p index point fresh)) <= 2)%nat.
Proof.
  unfold validate_curve_point.
  destruct (sequence_items point) as [[|x [|y [|z items]]]|];
    [ simpl; lia | simpl; lia | | simpl; lia | simpl; lia ].
  destruct (negb (isinstance x numeric)), (negb (isinstance y numeric));
    simpl; lia.
Qed.

Lemma validate_curve_points_bound (p : string) (points : list value) :
  forall index,
    (List.length (errors (validate_curve_points p index points fresh))
     <= 2 * List.length points)%nat.
Proof.
  induction points as [|point points IH]; intro index; [simpl; lia|].
  rewrite validate_curve_points_cons. simpl errors at 1.
  rewrite !length_app.
  pose proof (validate_curve_point_at_most_two p index point).
  pose proof (IH (S index)). simpl List.length. lia.
Qed.

(** X10. A curve of [n] points adds at most [2 * n] errors, and a point
    that is not a two-element sequence adds exactly one, at its own index,
    however many elements it has. A curve that is not a list adds exactly
    one error, at the field's path. *)
Theorem curve_report_is_bounded :
  forall (points : list value) (p : string) (r : ValidationResult),
    (List.length (errors (validate_curve (VList points) p r))
     <= List.length (errors r) + 2 * List.length points)%nat
    /\ (forall index point,
           (forall x y, sequence_items point <> Some [x; y]) ->
           validate_curve_point p index point r
           = add_error (p ++ "[" ++ nat_to_string index ++ "]")
               [Lit "Each curve point must be [x, y]"] r)
    /\ (forall curve,
           isinstance curve (Single Tlist) = false ->
           validate_curve curve p r
           = add_error p [Lit "Curve must be a list of [x, y] pairs"] r).
Proof.
  intros points p r. split; [|split].
  - simpl validate_curve.
    rewrite (appender_errors _ (error_appender_appender _
               (validate_curve_points_appends p points 0)) r).
    rewrite length_app.
    pose proof (validate_curve_points_bound p points 0). lia.
  - intros index point Hshape. unfold validate_curve_point.
    destruct (sequence_items point) as [[|x [|y [|z items]]]|];
      try reflexivity.
    now elim (Hshape x y).
  - intros curve Hnot. destruct curve; try reflexivity. discriminate.
Qed.

(** Three points of the wrong shape, and a string where a curve belongs. *)
Lemma curve_report_is_bounded_witness :
  validate_curve_point "range_curve" 2 (VList [VInt 1; VInt 2; VInt 3]) fresh
  = add_error "range_curve[2]" [Lit "Each curve point must be [x, y]"] fresh
  /\ validate_curve (VStr "steep") "range_curve" fresh
     = add_error "range_curve" [Lit "Curve must be a list of [x, y] pairs"] fresh.
Proof.
  pose proof (curve_report_is_bounded [] "range_curve" fresh) as H.
  destruct H as [_ [Hpoint Hcurve]]. split.
  - apply (Hpoint 2%nat (VList [VInt 1; VInt 2; VInt 3])).
    intros x y. discriminate.
  - apply (Hcurve (VStr "steep")). reflexivity.
Defined.

(* ================================================================== *)
(** ** Loading a file *)

(** X11. Whenever [load_config_file] returns an error message, the message
    is not empty and the data beside it is [None]; so the truth test of
    [validate_file] never lets a load error through, and the file's result is
    the one error at [file] with that message, with no kind. *)
Theorem load_error_is_reported_once :
  forall (env : Environment) (file_path : Path) (data : value) (text : string),
    load_config_file env file_path = Returns (data, Some text) ->
    data = VNone
    /\ text <> ""
    /\ validate_file_at env file_path
       = Returns (add_error "file" [Lit text]
                    (new_result (path_str file_path) None)).
Proof.
  intros env file_path data text Hload.
  assert (H : data = VNone /\ exists c rest, text = String c rest).
  { unfold load_config_file, load_config_body in Hload.
    destruct (read_text env file_path) as [e|content].
    - destruct (negb (YAML_AVAILABLE env)); [discriminate|].
      destruct e; try discriminate; injection Hload as <- <-;
        (split; [reflexivity | simpl; eauto]).
    - destruct (str_in (lower (path_suffix file_path)) [".yaml"; ".yml"]).
      + destruct (negb (YAML_AVAILABLE env)) eqn:Hyaml.
        * injection Hload as <- <-. split; [reflexivity | simpl; eauto].
        * destruct (yaml_safe_load env content) as [e|parsed];
            [|discriminate].
          destruct e; try discriminate; injection Hload as <- <-;
            (split; [reflexivity | simpl; eauto]).
      + destruct (String.eqb (lower (path_suffix file_path)) ".json").
        * destruct (json_loads env content) as [e|parsed]; [|discriminate].
          destruct (negb (YAML_AVAILABLE env)); [discriminate|].
          destruct e; try discriminate; injection Hload as <- <-;
            (split; [reflexivity | simpl; eauto]).
        * injection Hload as <- <-. split; [reflexivity | simpl; eauto]. }
  destruct H as [-> [c [rest ->]]].
  split; [reflexivity|]. split; [discriminate|].
  unfold validate_file_at. rewrite Hload. reflexivity.
Qed.

(** A text file among the configs. *)
Lemma load_error_is_reported_once_witness :
  validate_file_at (sample_environment true []) (config_file "notes" ".TXT")
  = Returns (add_error "file" [Lit "Unsupported file extension: .txt"]
               (new_result "configs/notes.TXT" None)).
Proof.
  apply (proj2 (proj2 (load_error_is_reported_once
                         (sample_environment true [])
                         (config_file "notes" ".TXT") VNone
                         "Unsupported file extension: .txt" eq_refl))).
Defined.

(** X12. An invalid JSON file given to the [validate] command: with PyYAML
    installed it is reported as one [file] error carrying the parser's
    message and the exit code is 1; without PyYAML the handler list of
    [load_config_file] cannot be evaluated and the command ends in a
    [NameError]. An unreadable file fares the same. A YAML file without
    PyYAML is reported, once it could be read, with the hint to install it. *)
Theorem invalid_json_needs_pyyaml :
  forall (env : Environment) (file : Path),
    path_exists env file = true ->
    (forall content text,
        read_text env file = inr content ->
        lower (path_suffix file) = ".json" ->
        json_loads env content = inl (JSONDecodeError text) ->
        (YAML_AVAILABLE env = true ->
         validate_file_at env file
         = Returns (add_error "file" [Lit ("JSON parsing error: " ++ text)]
                      (new_result (path_str file) None))
         /\ exists out, main env (ArgsValidate file) = Returns (out, 1%Z))
        /\ (YAML_AVAILABLE env = false ->
            main env (ArgsValidate file) = Raises (NameError "yaml")))
    /\ (forall text,
           read_text env file = inl (OSError text) ->
           (YAML_AVAILABLE env = true ->
            validate_file_at env file
            = Returns (add_error "file" [Lit ("File read error: " ++ text)]
                         (new_result (path_str file) None)))
           /\ (YAML_AVAILABLE env = false ->
               main env (ArgsValidate file) = Raises (NameError "yaml")))
    /\ (forall content,
           read_text env file = inr content ->
           lower (path_suffix file) = ".yaml" ->
           YAML_AVAILABLE env = false ->
           validate_file_at env file
           = Returns (add_error "file"
                        [Lit "PyYAML is not installed. Run: pip install pyyaml"]
                        (new_result (path_str file) None))).
Proof.
  intros env file Hexists. split; [|split].
  - intros content text Hread Hsuffix Hjson.
    assert (Hbody : load_config_body env file = inl (JSONDecodeError text)).
    { unfold load_config_body. now rewrite Hread, Hsuffix, Hjson. }
    split; intro Hyaml.
    + assert (Hfile : validate_file_at env file
                      = Returns (add_error "file"
                                   [Lit ("JSON parsing error: " ++ text)]
                                   (new_result (path_str file) None))).
      { unfold validate_file_at, load_config_file.
        now rewrite Hbody, Hyaml. }
      split; [exact Hfile|].
      unfold main. rewrite Hexists, Hfile. simpl negb. cbv iota.
      eexists. unfold report_result.
      change (is_valid (add_error "file" [Lit ("JSON parsing error: " ++ text)]
                          (new_result (path_str file) None))) with false.
      cbv iota. reflexivity.
    + unfold main, validate_file_at, load_config_file.
      now rewrite Hexists, Hbody, Hyaml.
  - intros text Hread.
    assert (Hbody : load_config_body env file = inl (OSError text)).
    { unfold load_config_body. now rewrite Hread. }
    split; intro Hyaml.
    + unfold validate_file_at, load_config_file. now rewrite Hbody, Hyaml.
    + unfold main, validate_file_at, load_config_file.
      now rewrite Hexists, Hbody, Hyaml.
  - intros content Hread Hsuffix Hyaml.
    unfold validate_file_at, load_config_file, load_config_body.
    now rewrite Hread, Hsuffix, Hyaml.
Qed.

(** The file [broken.json], with and without PyYAML. *)
Lemma invalid_json_needs_pyyaml_witness :
  validate_file_at (sample_environment true []) (config_file "broken" ".json")
  = Returns (add_error "file"
               [Lit "JSON parsing error: Expecting value: line 1 column 1 (char 0)"]
               (new_result "configs/broken.json" None))
  /\ main (sample_environment false []) (ArgsValidate (config_file "broken" ".json"))
     = Raises (NameError "yaml").
Proof.
  split.
  - apply (proj1 (proj1 (proj1 (invalid_json_needs_pyyaml
                                  (sample_environment true [])
                                  (config_file "broken" ".json") eq_refl)
                               "configs/broken.json"
                               "Expecting value: line 1 column 1 (char 0)"
                               eq_refl eq_refl eq_refl)
                        eq_refl)).
  - apply (proj2 (proj1 (invalid_json_needs_pyyaml
                           (sample_environment false [])
                           (config_file "broken" ".json") eq_refl)
                        "configs/broken.json"
                        "Expecting value: line 1 column 1 (char 0)"
                        eq_refl eq_refl eq_refl)).
    reflexivity.
Defined.

(* ================================================================== *)
(** ** Validating a directory *)

Lemma validate_file_keeps_name (file_name : string)
      (loaded : value * option string) (r : ValidationResult) :
  validate_file file_name loaded = Ok r -> file_path r = file_name.
Proof.
  unfold validate_file. intro Hr.
  assert (Hdict : forall data,
             match detect_config_type data with
             | Ok (Some ct) =>
                 Ok (validate_config data ct
                       (set_config_type ct (new_result file_name None)) "")
             | Ok None =>
                 Ok (add_error "root"
                       [Lit "Unable to detect config type. Add 'type' field or use recognizable field names."]
                       (new_result file_name None))
             | Raise e => Raise e
             end = Ok r -> file_path r = file_name).
  { intros data H.
    destruct (detect_config_type data) as [[ct|]|]; try discriminate;
      injection H as <-; [|reflexivity].
    apply (proj1 (validate_config_keeps_header data ct ""
                    (set_config_type ct (new_result file_name None)))). }
  destruct (snd loaded) as [[|c rest]|];
    try (injection Hr as <-; reflexivity);
    destruct (fst loaded); try (injection Hr as <-; reflexivity);
    now apply (Hdict entries).
Qed.

Lemma validate_file_at_keeps_name (env : Environment) (file : Path)
      (r : ValidationResult) :
  validate_file_at env file = Returns r -> file_path r = path_str file.
Proof.
  unfold validate_file_at.
  destruct (load_config_file env file) as [loaded|e]; [|discriminate].
  destruct (validate_file (path_str file) loaded) as [r'|e] eqn:Hr;
    [|discriminate].
  intro H. injection H as <-. now apply (validate_file_keeps_name _ loaded).
Qed.

Lemma validate_files_returns (env : Environment) (files : list Path) :
  (forall file, In file files -> in_test_directory file = false ->
                exists r, validate_file_at env file = Returns r) ->
  forall results,
  exists added,
    validate_files env files results = Returns (results ++ added)%list
    /\ map file_path added
       = map path_str
           (filter (fun file => negb (in_test_directory file)) files).
Proof.
  induction files as [|file files IH]; intros Hall results; simpl.
  - exists []. now rewrite app_nil_r.
  - assert (Hrest : forall f, In f files -> in_test_directory f = false ->
                              exists r, validate_file_at env f = Returns r).
    { intros f Hf. apply Hall. now right. }
    destruct (in_test_directory file) eqn:Htest; simpl.
    + apply (IH Hrest).
    + destruct (Hall file (or_introl eq_refl) Htest) as [r Hr]. rewrite Hr.
      destruct (IH Hrest (results ++ [r])%list) as [added [Hrun Hnames]].
      exists (r :: added). split.
      * now rewrite Hrun, <- app_assoc.
      * simpl. now rewrite Hnames, (validate_file_at_keeps_name env file r Hr).
Qed.

Lemma validate_files_raises (env : Environment) (files : list Path)
      (file : Path) (e : py_exception) :
  In file files -> in_test_directory file = false ->
  validate_file_at env file = Raises e ->
  forall results, exists e', validate_files env files results = Raises e'.
Proof.
  induction files as [|first files IH]; intros Hin Htest Hraise results;
    [contradiction|]. simpl.
  destruct (in_test_directory first) eqn:Hfirst.
  - destruct Hin as [->|Hin]; [congruence|]. now apply IH.
  - destruct (validate_file_at env first) as [r|e'] eqn:Hr; [|now exists e'].
    destruct Hin as [->|Hin]; [congruence|]. now apply IH.
Qed.

Lemma validate_files_skips_tests (env : Environment) (files : list Path) :
  (forall file, In file files -> in_test_directory file = true) ->
  forall results, validate_files env files results = Returns results.
Proof.
  induction files as [|file files IH]; intros Hall results; simpl;
    [reflexivity|].
  rewrite (Hall file (or_introl eq_refl)). apply IH.
  intros f Hf. apply Hall. now right.
Qed.

(** X13. A directory validation goes through the [*.yaml], then the
    [*.yml], then the [*.json] files outside [test] and [tests]
    directories. If each of them can be validated, it returns one result per
    file, in that order, each carrying its file's name. If the validation of
    any one of them raises, the whole directory validation raises and no
    result is returned for any file. *)
Theorem validate_directory_all_or_nothing :
  forall (env : Environment) (directory : Path),
    ((forall file, In file (visited_files env directory) ->
                   exists r, validate_file_at env file = Returns r) ->
     exists results,
       validate_directory env directory = Returns results
       /\ map file_path results = map path_str (visited_files env directory))
    /\ (forall file e,
           In file (visited_files env directory) ->
           validate_file_at env file = Raises e ->
           exists e', validate_directory env directory = Raises e').
Proof.
  intros env directory. unfold visited_files, validate_directory.
  set (yaml := rglob env directory "*.yaml").
  set (yml := rglob env directory "*.yml").
  set (json := rglob env directory "*.json").
  change (validate_extensions env directory [".yaml"; ".yml"; ".json"] [])
    with (match validate_files env yaml [] with
          | Raises e => Raises e
          | Returns r1 =>
              match validate_files env yml r1 with
              | Raises e => Raises e
              | Returns r2 =>
                  match validate_files env json r2 with
                  | Raises e => Raises e
                  | Returns r3 => Returns r3
                  end
              end
          end).
  split.
  - intro Hall.
    assert (Hof : forall files, (forall f, In f files -> In f (yaml ++ yml ++ json)%list) ->
                    forall file, In file files -> in_test_directory file = false ->
                                 exists r, validate_file_at env file = Returns r).
    { intros files Hsub file Hin Htest. apply Hall. apply filter_In.
      split; [now apply Hsub | now rewrite Htest]. }
    destruct (validate_files_returns env yaml
                (Hof yaml (fun f Hf => in_or_app _ _ f (or_introl Hf))) [])
      as [a1 [H1 N1]].
    destruct (validate_files_returns env yml
                (Hof yml (fun f Hf => in_or_app _ _ f
                                        (or_intror (in_or_app _ _ f (or_introl Hf)))))
                ([] ++ a1)%list) as [a2 [H2 N2]].
    destruct (validate_files_returns env json
                (Hof json (fun f Hf => in_or_app _ _ f
                                         (or_intror (in_or_app _ _ f (or_intror Hf)))))
                (([] ++ a1) ++ a2)%list) as [a3 [H3 N3]].
    rewrite H1, H2, H3. eexists. split; [reflexivity|].
    simpl app. rewrite !map_app, !filter_app, !map_app.
    now rewrite N1, N2, N3, app_assoc.
  - intros file e Hin Hraise. apply filter_In in Hin. destruct Hin as [Hin Htest].
    apply negb_true_iff in Htest.
    apply in_app_or in Hin. destruct Hin as [Hin|Hin].
    + destruct (validate_files_raises env yaml file e Hin Htest Hraise [])
        as [e' ->]. now exists e'.
    + destruct (validate_files env yaml []) as [r1|e1]; [|now exists e1].
      apply in_app_or in Hin. destruct Hin as [Hin|Hin].
      * destruct (validate_files_raises env yml file e Hin Htest Hraise r1)
          as [e' ->]. now exists e'.
      * destruct (validate_files env yml r1) as [r2|e2]; [|now exists e2].
        destruct (validate_files_raises env json file e Hin Htest Hraise r2)
          as [e' ->]. now exists e'.
Qed.

(** The sample directory without and with the document whose [type] is a
    number. *)
Lemma validate_directory_all_or_nothing_witness :
  (exists results,
      validate_directory
        (sample_environment true
           [config_file "weapon" ".json"; fixture_file "fixture" ".json";
            config_file "unit" ".yaml"])
        (mkPath "configs" "" ["configs"]) = Returns results
      /\ map file_path results = ["configs/unit.yaml"; "configs/weapon.json"])
  /\ exists e',
      validate_directory
        (sample_environment true
           [config_file "weapon" ".json"; config_file "numeric" ".yml"])
        (mkPath "configs" "" ["configs"]) = Raises e'.
Proof.
  split.
  - apply (proj1 (validate_directory_all_or_nothing
                    (sample_environment true
                       [config_file "weapon" ".json";
                        fixture_file "fixture" ".json";
                        config_file "unit" ".yaml"])
                    (mkPath "configs" "" ["configs"]))).
    intros file [<-|[<-|[]]]; eexists; reflexivity.
  - apply (proj2 (validate_directory_all_or_nothing
                    (sample_environment true
                       [config_file "weapon" ".json";
                        config_file "numeric" ".yml"])
                    (mkPath "configs" "" ["configs"]))
                 (config_file "numeric" ".yml")
                 (Detection (AttributeError "int" "lower"))).
    + left. reflexivity.
    + reflexivity.
Defined.

(** X14. A directory that itself lies under a directory named [test] or
    [tests] is validated to nothing: every file found in it has that name
    among its parts and is skipped, so [validate_directory] returns no
    result and [validate-all] prints that no config files were found and
    exits with 0. *)
Theorem directory_under_tests_is_skipped :
  forall (env : Environment) (directory : Path),
    (forall pattern file,
        In file (rglob env directory pattern) ->
        exists below, path_parts file = (path_parts directory ++ below)%list) ->
    in_test_directory directory = true ->
    validate_directory env directory = Returns []
    /\ (path_exists env directory = true ->
        main env (ArgsValidateAll directory)
        = Returns ([Lit "No config files found"; Lit nl], 0%Z)).
Proof.
  intros env directory Hparts Htest.
  assert (Hskip : forall pattern file,
             In file (rglob env directory pattern) ->
             in_test_directory file = true).
  { intros pattern file Hin. destruct (Hparts pattern file Hin) as [below Heq].
    unfold in_test_directory in *. rewrite Heq.
    apply orb_true_iff in Htest. apply orb_true_iff.
    destruct Htest as [H|H]; [left|right];
      apply str_in_In; apply in_or_app; left; now apply str_in_In. }
  assert (Hdir : validate_directory env directory = Returns []).
  { unfold validate_directory. simpl.
    rewrite (validate_files_skips_tests env _ (Hskip "*.yaml")).
    rewrite (validate_files_skips_tests env _ (Hskip "*.yml")).
    now rewrite (validate_files_skips_tests env _ (Hskip "*.json")). }
  split; [exact Hdir|].
  intro Hexists. unfold main. now rewrite Hexists, Hdir.
Qed.

(** The configs kept under [relic/tests/configs]. *)
Lemma directory_under_tests_is_skipped_witness :
  validate_directory
    (mkEnvironment true (fun file => inr (path_str file))
       (fun _ => inr (VDict spearman)) (fun _ => inr (VDict spearman))
       (fun _ => true)
       (fun _ pattern =>
          [mkPath "relic/tests/configs/unit.yaml" ".yaml"
                  ["relic"; "tests"; "configs"; "unit.yaml"]])
       "usage")
    (mkPath "relic/tests/configs" "" ["relic"; "tests"; "configs"])
  = Returns [].
Proof.
  apply directory_under_tests_is_skipped.
  - intros pattern file [<-|[]]. exists ["unit.yaml"]. reflexivity.
  - reflexivity.
Defined.

(* ================================================================== *)
(** ** Exit codes *)

Lemma tally_result_counts (t : tally) (result : ValidationResult) :
  total_errors (tally_result t result)
  = (total_errors t + List.length (errors result))%nat
  /\ total_warnings (tally_result t result)
     = (total_warnings t + List.length (warnings result))%nat
  /\ failed_files (tally_result t result)
     = (failed_files t
        ++ if is_valid result then [] else [file_path result])%list.
Proof.
  unfold tally_result. destruct (is_valid result); simpl.
  - now rewrite app_nil_r.
  - repeat split.
Qed.

Lemma tally_counts (results : list ValidationResult) :
  forall t,
    total_errors (fold_left tally_result results t)
    = (total_errors t
       + list_sum (map (fun r => List.length (errors r)) results))%nat
    /\ total_warnings (fold_left tally_result results t)
       = (total_warnings t
          + list_sum (map (fun r => List.length (warnings r)) results))%nat
    /\ failed_files (fold_left tally_result results t)
       = (failed_files t
          ++ map file_path (filter (fun r => negb (is_valid r)) results))%list.
Proof.
  induction results as [|result results IH]; intro t; simpl.
  - rewrite !Nat.add_0_r, app_nil_r. repeat split.
  - destruct (IH (tally_result t result)) as [He [Hw Hf]].
    destruct (tally_result_counts t result) as [He' [Hw' Hf']].
    rewrite He, Hw, Hf, He', Hw', Hf'. repeat split; try lia.
    rewrite <- app_assoc. f_equal. now destruct (is_valid result).
Qed.

Lemma no_failed_files (results : list ValidationResult) :
  map file_path (filter (fun r => negb (is_valid r)) results) = []
  <-> forallb is_valid results = true.
Proof.
  induction results as [|result results IH]; simpl; [tauto|].
  destruct (is_valid result); simpl; [exact IH|].
  split; discriminate.
Qed.

Lemma no_errors_in_total (results : list ValidationResult) :
  list_sum (map (fun r => List.length (errors r)) results) = 0%nat
  <-> forallb is_valid results = true.
Proof.
  induction results as [|result results IH]; simpl; [tauto|].
  unfold is_valid at 1. destruct (errors result) as [|e es]; simpl.
  - exact IH.
  - split; discriminate.
Qed.

Lemma printed_stays {A : Type} (line : A -> fstring) (items : list A)
      (x : fpart) :
  forall out, In x out -> In x (fold_left (fun o item => print (line item) o) items out).
Proof.
  induction items as [|item items IH]; intros out Hin; simpl; [assumption|].
  apply IH. unfold print. apply in_or_app. now left.
Qed.

(** X15. The exit code of the two validating commands. [validate] returns
    1 for a path that does not exist, and otherwise 0 exactly when the file's
    result has no error. [validate-all] returns 0 exactly when every result
    is valid, which is exactly when the total of errors it prints is 0; when
    there is a result it prints the totals of files, errors and warnings
    over all results. Warnings never change an exit code. *)
Theorem validating_commands_exit_codes :
  forall (env : Environment),
    (forall file,
        path_exists env file = false ->
        main env (ArgsValidate file)
        = Returns ([Lit ("Error: File not found: " ++ path_str file); Lit nl],
                   1%Z))
    /\ (forall file r,
           path_exists env file = true ->
           validate_file_at env file = Returns r ->
           exists out,
             main env (ArgsValidate file)
             = Returns (out, if is_valid r then 0%Z else 1%Z))
    /\ (forall directory results,
           path_exists env directory = true ->
           validate_directory env directory = Returns results ->
           let errors_total :=
             list_sum (map (fun r => List.length (errors r)) results) in
           let warnings_total :=
             list_sum (map (fun r => List.length (warnings r)) results) in
           exists out,
             main env (ArgsValidateAll directory)
             = Returns (out, if forallb is_valid results then 0%Z else 1%Z)
             /\ (forallb is_valid results = true <-> errors_total = 0%nat)
             /\ (results <> [] ->
                 In (Lit ("Total: " ++ nat_to_string (List.length results)
                          ++ " files, " ++ nat_to_string errors_total
                          ++ " errors, " ++ nat_to_string warnings_total
                          ++ " warnings")) out)).
Proof.
  intro env. split; [|split].
  - intros file Hmissing. unfold main. now rewrite Hmissing.
  - intros file r Hexists Hr. unfold main. rewrite Hexists, Hr. simpl negb.
    cbv iota. unfold report_result.
    destruct (is_valid r); [destruct (warnings r)|]; eexists; reflexivity.
  - intros directory results Hexists Hresults errors_total warnings_total.
    unfold main. rewrite Hexists, Hresults. simpl negb. cbv iota.
    destruct results as [|first rest].
    + eexists. split; [reflexivity|]. split; [tauto|]. intro H. now elim H.
    + remember (first :: rest) as results eqn:Heq.
      assert (Hreport :
                report_results results []
                = let t := fold_left tally_result results (mkTally [] 0 0 []) in
                  let out1 := print [Lit (nl ++ str_repeat "=" 40)] (tally_out t) in
                  let out2 :=
                    print [Lit ("Total: " ++ nat_to_string (List.length results)
                                ++ " files, "
                                ++ nat_to_string (total_errors t) ++ " errors, "
                                ++ nat_to_string (total_warnings t)
                                ++ " warnings")] out1 in
                  match failed_files t with
                  | [] => (out2, 0%Z)
                  | _ =>
                      (fold_left (fun o name => print [Lit ("  - " ++ name)] o)
                                 (failed_files t)
                                 (print [Lit (nl ++ "Failed files:")] out2), 1%Z)
                  end).
      { subst results. reflexivity. }
      rewrite Hreport. clear Hreport. cbv zeta.
      destruct (tally_counts results (mkTally [] 0 0 [])) as [He [Hw Hf]].
      simpl in He, Hw, Hf. rewrite He, Hw.
      fold errors_total. fold warnings_total.
      pose proof (no_failed_files results) as Hnone.
      pose proof (no_errors_in_total results) as Hzero.
      fold errors_total in Hzero.
      destruct (failed_files (fold_left tally_result results (mkTally [] 0 0 [])))
        as [|name names] eqn:Hfailed.
      * symmetry in Hf. apply Hnone in Hf. rewrite Hf.
        eexists. split; [reflexivity|]. split; [now rewrite Hzero|].
        intros _. unfold print. apply in_or_app. right. now left.
      * assert (Hinvalid : forallb is_valid results = false).
        { apply not_true_is_false. intro Hall.
          apply Hnone in Hall. rewrite Hall in Hf. discriminate. }
        rewrite Hinvalid.
        eexists. split; [reflexivity|]. split.
        -- rewrite Hzero, Hinvalid. tauto.
        -- intros _.
           apply (printed_stays (fun name => [Lit ("  - " ++ name)])).
           unfold print. apply in_or_app. left.
           apply in_or_app. right. now left.
Qed.

(** The sample directory: one invalid weapon, one archetype with a
    warning. *)
Lemma validating_commands_exit_codes_witness :
  (exists out,
      main (sample_environment true []) (ArgsValidate (config_file "unit" ".yaml"))
      = Returns (out, 0%Z))
  /\ exists out,
      main (sample_environment true
              [config_file "weapon" ".json"; config_file "unit" ".yaml"])
           (ArgsValidateAll (mkPath "configs" "" ["configs"]))
      = Returns (out, 1%Z)
      /\ In (Lit "Total: 2 files, 1 errors, 1 warnings") out.
Proof.
  split.
  - apply (proj1 (proj2 (validating_commands_exit_codes
                           (sample_environment true [])))
                 (config_file "unit" ".yaml")
                 (add_warning "unknown_field"
                    [Lit "Unknown field 'unknown_field'"]
                    (new_result "configs/unit.yaml" (Some UNIT_ARCHETYPE)))
                 eq_refl eq_refl).
  - destruct (proj2 (proj2 (validating_commands_exit_codes
                              (sample_environment true
                                 [config_file "weapon" ".json";
                                  config_file "unit" ".yaml"])))
                    (mkPath "configs" "" ["configs"]) _ eq_refl eq_refl)
      as [out [Hmain [_ Htotal]]].
    exists out. split; [exact Hmain|].
    apply Htotal. discriminate.
Defined.

(* ================================================================== *)
(** ** The schema command *)

Lemma print_keeps (text out : fstring) (x : fpart) :
  In x out -> In x (print text out).
Proof.
  intro H. unfold print. apply in_or_app. now left.
Qed.

Lemma print_has (text out : fstring) (x : fpart) :
  In x text -> In x (print text out).
Proof.
  intro H. unfold print. apply in_or_app. right. apply in_or_app. now left.
Qed.

Lemma print_fields_keep (schema : Schema)
      (entries : list (string * expected_type)) (x : fpart) :
  forall out, In x out -> In x (fold_left (print_field schema) entries out).
Proof.
  induction entries as [|entry entries IH]; intros out H; simpl; [assumption|].
  apply IH. unfold print_field. now apply print_keeps.
Qed.

Lemma print_fields_have (schema : Schema)
      (entries : list (string * expected_type)) (entry : string * expected_type) :
  In entry entries ->
  forall out,
    In (Lit ("  - " ++ fst entry ++ ": " ++ field_type_label (snd entry)))
       (fold_left (print_field schema) entries out).
Proof.
  induction entries as [|first entries IH]; intros Hin out; [contradiction|].
  simpl. destruct Hin as [->|Hin].
  - apply print_fields_keep. unfold print_field. apply print_has. now left.
  - now apply IH.
Qed.

Lemma find_config_type_members (name : string) (k : ConfigType) :
  find_config_type ConfigType_members name = Some k ->
  exists schema, schemas_get k SCHEMAS = Some schema.
Proof.
  intros _. destruct k; eexists; reflexivity.
Qed.

(** X16. The [schema] command looks a kind up by the names, in any letter
    case, that detection accepts as a [type]. For a name of no kind it
    prints that the type is unknown and lists the four kinds. For a kind it
    never fails on the registry, and prints the kind's canonical name and one
    line for every required and every optional field of the kind's schema,
    with the field's name and type. In both cases the exit code is 0. *)
Theorem schema_command_lists_the_schema :
  forall (env : Environment) (name : string),
    match_type_name ConfigType_members (VStr name)
    = Ok (find_config_type ConfigType_members name)
    /\ (find_config_type ConfigType_members name = None ->
        main env (ArgsSchema name)
        = Returns ([Lit ("Unknown config type: " ++ name); Lit nl;
                    Lit "Available types: EraConfig, UnitArchetype, WeaponStats, UpgradeDefinition";
                    Lit nl], 0%Z))
    /\ (forall k,
           find_config_type ConfigType_members name = Some k ->
           exists schema text,
             schemas_get k SCHEMAS = Some schema
             /\ main env (ArgsSchema name) = Returns (text, 0%Z)
             /\ In (Lit (nl ++ ConfigType_value k ++ " Schema")) text
             /\ forall entry,
                 In entry (required_fields schema ++ optional_fields_of schema)%list ->
                 In (Lit ("  - " ++ fst entry ++ ": "
                          ++ field_type_label (snd entry))) text).
Proof.
  intros env name. split; [|split].
  - unfold ConfigType_members. cbn [match_type_name py_lower find_config_type].
    repeat match goal with
           | |- context [String.eqb ?a (lower name)] =>
               destruct (String.eqb a (lower name))
           end; reflexivity.
  - intro Hnone. unfold main, print_schema. now rewrite Hnone.
  - intros k Hfound.
    destruct (find_config_type_members name k Hfound) as [schema Hs].
    exists schema. unfold main, print_schema. rewrite Hfound, Hs.
    eexists. split; [reflexivity|]. split; [reflexivity|]. split.
    + apply print_keeps, print_keeps.
      assert (Hfields : forall out,
                 In (Lit (nl ++ ConfigType_value k ++ " Schema")) out ->
                 In (Lit (nl ++ ConfigType_value k ++ " Schema"))
                    match optional_fields schema with
                    | Some (entry :: rest) =>
                        fold_left (print_field schema) (entry :: rest)
                          (print [Lit (nl ++ "Optional Fields:")] out)
                    | _ => out
                    end).
      { intros out H. destruct (optional_fields schema) as [[|e rest]|];
          try assumption.
        now apply print_fields_keep, print_keeps. }
      apply Hfields, print_fields_keep, print_keeps, print_keeps, print_has.
      now left.
    + intros entry Hin. apply print_keeps, print_keeps.
      apply in_app_or in Hin. destruct Hin as [Hin|Hin].
      * assert (Hfields : forall out,
                   In (Lit ("  - " ++ fst entry ++ ": "
                            ++ field_type_label (snd entry))) out ->
                   In (Lit ("  - " ++ fst entry ++ ": "
                            ++ field_type_label (snd entry)))
                      match optional_fields schema with
                      | Some (e :: rest) =>
                          fold_left (print_field schema) (e :: rest)
                            (print [Lit (nl ++ "Optional Fields:")] out)
                      | _ => out
                      end).
        { intros out H. destruct (optional_fields schema) as [[|e rest]|];
            try assumption.
          now apply print_fields_keep, print_keeps. }
        apply Hfields. now apply print_fields_have.
      * unfold optional_fields_of in Hin.
        destruct (optional_fields schema) as [[|e rest]|];
          try contradiction.
        now apply print_fields_have.
Qed.

(** The weapon schema asked for in capitals, and a name of no kind. *)
Lemma schema_command_lists_the_schema_witness :
  (exists schema text,
      schemas_get WEAPON_STATS SCHEMAS = Some schema
      /\ main (sample_environment true []) (ArgsSchema "WEAPONSTATS")
         = Returns (text, 0%Z)
      /\ In (Lit (nl ++ "WeaponStats Schema")) text
      /\ forall entry,
          In entry (required_fields schema ++ optional_fields_of schema)%list ->
          In (Lit ("  - " ++ fst entry ++ ": " ++ field_type_label (snd entry)))
             text)
  /\ main (sample_environment true []) (ArgsSchema "Weapon")
     = Returns ([Lit "Unknown config type: Weapon"; Lit nl;
                 Lit "Available types: EraConfig, UnitArchetype, WeaponStats, UpgradeDefinition";
                 Lit nl], 0%Z).
Proof.
  split.
  - apply (proj2 (proj2 (schema_command_lists_the_schema
                           (sample_environment true []) "WEAPONSTATS"))
                 WEAPON_STATS).
    reflexivity.
  - apply (proj1 (proj2 (schema_command_lists_the_schema
                           (sample_environment true []) "Weapon"))).
    reflexivity.
Defined.

(* ================================================================== *)
(** ** When [validate_file] raises *)





(* ================================================================== *)
(** ** The [type] field *)

Lemma type_is_no_schema_field (ct : ConfigType) (schema : Schema) :
  schemas_get ct SCHEMAS = Some schema ->
  forall entry,
    In entry (required_fields schema ++ optional_fields_of schema)%list ->
    fst entry <> "type".
Proof.
  intros Hs entry Hin Heq.
  assert (H : str_in "type"
                (dict_keys (required_fields schema ++ optional_fields_of schema))
              = false).
  { destruct ct; simpl in Hs; injection Hs as <-; reflexivity. }
  assert (Hin' : str_in "type"
                   (dict_keys (required_fields schema ++ optional_fields_of schema))
                 = true).
  { apply str_in_In. rewrite <- Heq. now apply in_map. }
  congruence.
Qed.

(** X18. [validate_config] never looks at the value of the [type] field:
    the document and the document without its [type] validate to the same
    result, so a [type] of any value, even one naming another kind, brings
    neither an error nor a warning. *)
Theorem type_field_is_never_validated :
  forall (ct : ConfigType) (schema : Schema) (data : document)
         (prefix : string) (r : ValidationResult),
    schemas_get ct SCHEMAS = Some schema ->
    validate_config data ct r prefix
    = validate_config (without_field "type" data) ct r prefix.
Proof.
  intros ct schema data prefix r Hs.
  rewrite !(validate_config_unfold _ ct schema prefix r Hs).
  assert (Hknown : str_in "type" (known_fields schema) = true).
  { apply str_in_In. unfold known_fields.
    apply in_or_app. right. apply in_or_app. right. now left. }
  rewrite (unknown_loop_without_known_field schema prefix "type" data Hknown).
  f_equal. unfold schema_loops.
  rewrite (fold_left_same_steps
             (required_step schema data prefix)
             (required_step schema (without_field "type" data) prefix)).
  - apply fold_left_same_steps. intros entry Hin r'. symmetry.
    apply optional_step_same_field, dict_get_without_field.
    apply (type_is_no_schema_field ct schema Hs).
    apply in_or_app. now right.
  - intros entry Hin r'. symmetry.
    apply required_step_same_field, dict_get_without_field.
    apply (type_is_no_schema_field ct schema Hs).
    apply in_or_app. now left.
Qed.

(** The spearman, validated as an archetype while calling itself a weapon. *)
Lemma type_field_is_never_validated_witness :
  validate_config
    [("type", VStr "WeaponStats"); ("id", VStr "spearman");
     ("base_health", VInt 100); ("base_move_speed", VInt 5)]
    UNIT_ARCHETYPE fresh ""
  = validate_config
      [("id", VStr "spearman"); ("base_health", VInt 100);
       ("base_move_speed", VInt 5)]
      UNIT_ARCHETYPE fresh "".
Proof.
  apply (type_field_is_never_validated UNIT_ARCHETYPE unit_archetype_schema
           [("type", VStr "WeaponStats"); ("id", VStr "spearman");
            ("base_health", VInt 100); ("base_move_speed", VInt 5)]
           "" fresh eq_refl).
Defined.
